(** * pynsot command-line front end: [pynsot/cli.py]

    A shallow embedding of the command loader ([CLI]) and of the resource
    controller ([App]) of [pynsot/cli.py], together with the properties of
    the partial-update protocol, the error paths, the field mapper and the
    command discovery.

    Python dictionaries are finite maps ([gmap string value]), the remote API
    and the terminal are observed through a trace of events, and exceptions
    are results ([Raise]) that a [try ... except C] intercepts by class. *)

From Stdlib Require Import Ascii.
From stdpp Require Import base option list gmap fin_maps strings sorting pretty.

Set Warnings "-register-all".
#[local] Open Scope string_scope.

(** ** Python values and exceptions *)

Module Py.

(** The values that travel between the command line, the controller and the
    API: JSON-like data, plus opaque objects such as a click command. *)
Inductive value :=
| VNone
| VBool (b : bool)
| VInt (z : Z)
| VStr (s : string)
| VList (l : list value)
| VDict (d : gmap string value)
| VObj (tag : string).

Abbreviation dict := (gmap string value).

(** [requests.Response], as far as [handle_error] reads it. *)
Record Response := { status_code : Z; reason : string }.

(** Exception classes that the module names or that its calls can raise.
    A subclass instance counts as its caught base class. *)
Inductive exn_class :=
| ImportError | SyntaxError | AttributeError | UnicodeDecodeError
| HttpClientError | HttpServerError | ConnectionError
| KeyError | IndexError | TypeError | UnboundLocalError
| SystemExit.

#[global] Instance exn_class_eq_dec : EqDecision exn_class.
Proof. solve_decision. Defined.

(** An exception instance: its class, [str(err)], and
    [getattr(err, 'response', None)].  For [SystemExit] the string is the
    argument given to [sys.exit]. *)
Record exn := {
  exn_cls : exn_class;
  exn_str : string;
  exn_response : option Response
}.

Definition mk_exn (c : exn_class) (msg : string) : exn :=
  {| exn_cls := c; exn_str := msg; exn_response := None |}.

Inductive outcome (A : Type) :=
| Return (a : A)
| Raise (e : exn).
Arguments Return {A} a.
Arguments Raise {A} e.

Inductive verb := POST | GET | PUT | DELETE | PATCH.

#[global] Instance verb_eq_dec : EqDecision verb.
Proof. solve_decision. Defined.

(** What an invocation does to the outside world, in order. *)
Inductive event :=
| Request (v : verb) (resource : string) (obj_id : option value) (body : dict)
| Echo (s : string)
| EchoPager (s : string)
| Print (s : string).

(** Computations: the events emitted so far and how the computation ended. *)
Definition M (A : Type) : Type := list event * outcome A.

Definition ret {A} (a : A) : M A := ([], Return a).
Definition raise {A} (e : exn) : M A := ([], Raise e).
Definition lift {A} (o : outcome A) : M A := ([], o).
Definition emit (ev : event) : M unit := ([ev], Return tt).

Definition bind {A B} (m : M A) (k : A → M B) : M B :=
  match m with
  | (t, Return a) => let '(t', r) := k a in ((t ++ t')%list, r)
  | (t, Raise e) => (t, Raise e)
  end.

Definition obind {A B} (o : outcome A) (k : A → outcome B) : outcome B :=
  match o with
  | Return a => k a
  | Raise e => Raise e
  end.

(** [try: body / except cls as err: handler err / else: orelse a].  An
    exception of another class, or one raised by the handler or by the else
    branch, propagates. *)
Definition try_except {A B} (cls : exn_class) (body : M A)
    (handler : exn → M B) (orelse : A → M B) : M B :=
  match body with
  | (t, Return a) => let '(t', r) := orelse a in ((t ++ t')%list, r)
  | (t, Raise e) =>
      if decide (exn_cls e = cls)
      then let '(t', r) := handler e in ((t ++ t')%list, r)
      else (t, Raise e)
  end.

Definition trace {A} (m : M A) : list event := m.1.
Definition result {A} (m : M A) : outcome A := m.2.

(** The process exit status when the invocation ends with [o]: 0 on a normal
    return; [sys.exit] with a string and an uncaught exception both give 1. *)
Definition exit_status {A} (o : outcome A) : Z :=
  match o with
  | Return _ => 0
  | Raise _ => 1
  end.

(** ** Built-in operations *)

(** [bool(v)] *)
Definition truthy (v : value) : bool :=
  match v with
  | VNone => false
  | VBool b => b
  | VInt z => negb (z =? 0)%Z
  | VStr s => negb (String.eqb s EmptyString)
  | VList l => match l with [] => false | _ => true end
  | VDict d => negb (bool_decide (d = ∅))
  | VObj _ => true
  end.

(** [v[k]] for a string key *)
Definition getitem (v : value) (k : string) : outcome value :=
  match v with
  | VDict d =>
      match d !! k with
      | Some x => Return x
      | None => Raise (mk_exn KeyError k)
      end
  | _ => Raise (mk_exn TypeError "string index on a non-mapping")
  end.

(** [v[0]]; a dictionary with string keys has no key [0]. *)
Definition first_item (v : value) : outcome value :=
  match v with
  | VList (x :: _) => Return x
  | VList [] => Raise (mk_exn IndexError "list index out of range")
  | VStr (String c _) => Return (VStr (String c EmptyString))
  | VStr EmptyString => Raise (mk_exn IndexError "string index out of range")
  | VDict _ => Raise (mk_exn KeyError "0")
  | _ => Raise (mk_exn TypeError "object has no __getitem__")
  end.

Fixpoint characters (s : string) : list value :=
  match s with
  | EmptyString => []
  | String c s' => VStr (String c EmptyString) :: characters s'
  end.

(** The items that [for x in v] goes through: the elements of a list, the
    keys of a dictionary, the characters of a string. *)
Definition iterate (v : value) : outcome (list value) :=
  match v with
  | VList l => Return l
  | VDict d => Return (VStr <$> (map_to_list d).*1)
  | VStr s => Return (characters s)
  | _ => Raise (mk_exn TypeError "object is not iterable")
  end.

(** [v.keys()] *)
Definition keys (v : value) : outcome (list string) :=
  match v with
  | VDict d => Return ((map_to_list d).*1)
  | _ => Raise (mk_exn AttributeError "keys")
  end.

(** [d.pop(k)]: the value and the dictionary without the key. *)
Definition dict_pop (d : dict) (k : string) : outcome (value * dict) :=
  match d !! k with
  | Some v => Return (v, delete k d)
  | None => Raise (mk_exn KeyError k)
  end.

(** [[f x for x in l]], stopping at the first exception. *)
Fixpoint comprehension {A B} (f : A → outcome B) (l : list A) : outcome (list B) :=
  match l with
  | [] => Return []
  | x :: l' =>
      match f x with
      | Raise e => Raise e
      | Return y =>
          match comprehension f l' with
          | Raise e => Raise e
          | Return ys => Return (y :: ys)
          end
      end
  end.

(** [sep.join(l)] *)
Fixpoint join (sep : string) (l : list string) : string :=
  match l with
  | [] => EmptyString
  | [s] => s
  | s :: l' => s +:+ sep +:+ join sep l'
  end.

Fixpoint str_drop (n : nat) (s : string) : string :=
  match n, s with
  | O, _ => s
  | S n', String _ s' => str_drop n' s'
  | S _, EmptyString => EmptyString
  end.

Fixpoint str_take (n : nat) (s : string) : string :=
  match n, s with
  | O, _ => EmptyString
  | S n', String c s' => String c (str_take n' s')
  | S _, EmptyString => EmptyString
  end.

(** A slice bound [i] of a sequence of length [n]: negative bounds count
    from the end, and every bound is clipped to [0, n]. *)
Definition slice_bound (n i : Z) : Z :=
  if (i <? 0)%Z then Z.max 0 (i + n) else Z.min i n.

(** [s[lo:hi]] *)
Definition slice (s : string) (lo hi : Z) : string :=
  let n := Z.of_nat (String.length s) in
  let a := slice_bound n lo in
  let b := slice_bound n hi in
  str_take (Z.to_nat (b - a)) (str_drop (Z.to_nat a) s).

(** [s.startswith(p)] *)
Definition startswith (s p : string) : bool := String.prefix p s.

(** [s.endswith(p)]: some tail of [s] is [p]. *)
Fixpoint endswith (s p : string) : bool :=
  if String.eqb s p then true
  else match s with
       | EmptyString => false
       | String _ s' => endswith s' p
       end.

(** [u.encode('ascii', 'replace')] on a unicode string given by its code
    points: every character outside ASCII becomes a question mark. *)
Definition encode_ascii_replace (u : list N) : string :=
  foldr (λ c s, String (if (c <? 128)%N then Ascii.ascii_of_N c else "?"%char) s)
    EmptyString u.

End Py.
Export Py.

Notation "'do' x <- m ; k" := (bind m (λ x, k))
  (at level 10, x name, m at level 100, k at level 200, only parsing).
Notation "'do' ' p <- m ; k" := (bind m (λ x, match x with p => k end))
  (at level 10, p pattern, m at level 100, k at level 200, only parsing).
Notation "'run' m ; k" := (bind m (λ _, k))
  (at level 10, m at level 100, k at level 200, only parsing).

(** ** Module constants *)

(** Used to map human-readable action names to API calls. *)
Definition ACTION_MAP : gmap string string :=
  <["add" := "post"]> (<["list" := "get"]> (<["remove" := "delete"]>
    (<["update" := "patch"]> ∅))).

(** Mapping of object field names to their human-readable form used when
    calling [print_list] for an object type. *)
Definition FIELDS_MAP : gmap string string :=
  <["id" := "ID"]> (<["name" := "Name"]> (<["description" := "Description"]> ∅)).

(** ** The command loader: [class CLI] *)

Module CLI.

(** A loaded module: its attributes. *)
Abbreviation pymodule := (gmap string value).

(** [list_commands], on the result of [os.listdir(CMD_FOLDER)]. *)
Definition list_commands (listdir : list string) : list string :=
  let rv :=
    foldl (λ rv filename,
             if endswith filename ".py" && startswith filename "cmd_"
             then rv ++ [slice filename 4 (-3)]
             else rv)%list
          [] listdir in
  merge_sort String.le rv.

(** [get_command] under Python 2, where [name] is the unicode text that
    click hands over and [import_ m] is the outcome of [__import__(m, ...)]. *)
Definition get_command (import_ : string → outcome pymodule) (name : list N)
    : M value :=
  try_except ImportError
    (let name := encode_ascii_replace name in
     lift (import_ ("pynsot.commands.cmd_" +:+ name)))
    (λ err, run emit (Print (exn_str err)); ret VNone)
    (λ mod_,
       match mod_ !! "cli" with
       | Some cli => ret cli
       | None => raise (mk_exn AttributeError "cli")
       end).

End CLI.
Export CLI.

(** ** The resource controller: [class App] *)

(** What the controller uses and this file does not define: [repr] of the
    language, [pynsot.models.ApiModel] (taken as the mapping that
    [dict(ApiModel(obj))] yields for a fetched object), [tabulate.tabulate]
    with the [simple] format, and [click.get_terminal_size]. *)
Class Externals := {
  repr : value → string;
  ApiModel : value → gmap string value;
  tabulate : list (list value) → list string → string;
  get_terminal_size : Z * Z
}.

(** [pynsot.client.Client], as the controller calls it: the reply of the
    service to each request, a returned value or a raised exception. *)
Record Client := {
  resource_post : string → dict → outcome value;
  resource_get : string → dict → outcome value;
  object_get : string → value → outcome value;
  object_put : string → value → dict → outcome value;
  object_delete : string → value → outcome value
}.

Record App := {
  api : Client;
  verbose : bool;
  resource_name : string
}.

Module Controller.
Section Controller.
Context `{Externals}.

(** [ctx.exit(msg)]: click hands the argument to [sys.exit]. *)
Definition ctx_exit (msg : string) : M unit :=
  raise (mk_exn SystemExit msg).

(** [click.echo(msg)] *)
Definition echo (msg : string) : M unit := emit (Echo msg).

(** The calls on [self.resource] and on [self.resource(obj_id)]. *)
Definition post (self : App) (data : dict) : M value :=
  run emit (Request POST (resource_name self) None data);
  lift (resource_post (api self) (resource_name self) data).

Definition get (self : App) (data : dict) : M value :=
  run emit (Request GET (resource_name self) None data);
  lift (resource_get (api self) (resource_name self) data).

Definition get_object (self : App) (obj_id : value) : M value :=
  run emit (Request GET (resource_name self) (Some obj_id) ∅);
  lift (object_get (api self) (resource_name self) obj_id).

Definition put_object (self : App) (obj_id : value) (payload : dict) : M value :=
  run emit (Request PUT (resource_name self) (Some obj_id) payload);
  lift (object_put (api self) (resource_name self) obj_id payload).

Definition delete_object (self : App) (obj_id : value) : M value :=
  run emit (Request DELETE (resource_name self) (Some obj_id) ∅);
  lift (object_delete (api self) (resource_name self) obj_id).

(** Return singular form of resource name. *)
Definition singular (self : App) : string :=
  let resource_name := resource_name self in
  if endswith resource_name "s" then slice resource_name 0 (-1)
  else resource_name.

(** Return a dict in k=v format; the items come in the order in which the
    map enumerates them. *)
Definition pretty_dict (data : dict) : string :=
  join ", " (map (λ '(k, v), k +:+ "=" +:+ repr v) (map_to_list data)).

(** Handle error API response. *)
Definition handle_error (self : App) (action : string) (data : dict) (err : exn)
    : M unit :=
  let pretty_dict := pretty_dict data in
  let resp := exn_response err in
  let obj_single := singular self in
  let msg :=
    match resp with
    | Some resp =>
        "[FATAL] " +:+ pretty (status_code resp) +:+ " " +:+ reason resp
        +:+ " trying to " +:+ action +:+ " " +:+ obj_single
        +:+ " with args: " +:+ pretty_dict
    | None => "[FATAL] " +:+ exn_str err
    end in
  ctx_exit msg.

(** Handle positive API response. *)
Definition handle_response (self : App) (action : string) (data : dict)
    (result : value) : M unit :=
  let pretty_dict := pretty_dict data in
  let msg := "Successfully " +:+ action +:+ "ed " +:+ singular self
             +:+ " with args: " +:+ pretty_dict +:+ "!" in
  echo msg.

(** Map [fields] using [fields_map].  After the handler nothing binds
    [headers], so falling through it would be an [UnboundLocalError]. *)
Definition map_fields (self : App) (fields : list string)
    (fields_map : gmap string string) : M (list string) :=
  try_except KeyError
    (lift (comprehension
             (λ f, match fields_map !! f with
                   | Some h => Return h
                   | None => Raise (mk_exn KeyError f)
                   end) fields))
    (λ _, run ctx_exit "Could not map field %r when displaying results.";
          raise (mk_exn UnboundLocalError "headers"))
    (λ headers, ret headers).

(** Print objects in a table format. *)
Definition print_list (self : App) (objects : value)
    (fields : option (list string)) (fields_map : option (gmap string string))
    : M unit :=
  do fields <- match fields with
               | None => do first_obj <- lift (first_item objects);
                         lift (keys first_obj)
               | Some fields => ret fields
               end;
  let fields_map := default FIELDS_MAP fields_map in
  do headers <- map_fields self fields fields_map;
  do table_data <-
    lift (obind (iterate objects)
            (comprehension (λ obj, comprehension (λ f, getitem obj f) fields)));
  let table := tabulate table_data headers in
  let '(t_height, _) := get_terminal_size in
  if (Z.of_nat (length table_data) >? t_height)%Z
  then emit (EchoPager table)
  else echo table.

Definition add (self : App) (data : dict) : M unit :=
  let action := "add" in
  try_except HttpClientError (post self data)
    (λ err, handle_error self action data err)
    (λ result, handle_response self action data result).

(** [list], with the method [self.print_list] that it dispatches to made an
    argument. *)
Definition list_via (print_list : value → option (list string) → M unit)
    (self : App) (data : dict) (fields : option (list string)) : M unit :=
  let action := "list" in
  try_except HttpClientError (get self data)
    (λ err, handle_error self action data err)
    (λ result,
       do objects <-
         (if truthy result
          then lift (obind (getitem result "data")
                           (λ d, getitem d (resource_name self)))
          else ret (VList []));
       if truthy objects
       then print_list objects fields
       else
         let pretty_dict := pretty_dict data in
         let msg := "No " +:+ singular self +:+ " found matching args: "
                    +:+ pretty_dict +:+ "!" in
         echo msg).

(** [App.list] ([list] itself is the type of lists here). *)
Definition list_ (self : App) (data : dict) (fields : option (list string))
    : M unit :=
  list_via (λ objects fields, print_list self objects fields None)
    self data fields.

Definition remove (self : App) (data : dict) : M unit :=
  let action := "remove" in
  do obj_id <- lift (getitem (VDict data) "id");
  try_except HttpClientError (delete_object self obj_id)
    (λ err, handle_error self action data err)
    (λ result, handle_response self action data result).

(** The loop [for k, v in data.items(): if v is not None: payload[k] = v]. *)
Definition overlay (data payload : dict) : dict :=
  map_fold (λ k v payload,
              match v with
              | VNone => payload
              | _ => <[k := v]> payload
              end) payload data.

(** [update]: [data.pop('id')] leaves [data] without the identifier for the
    rest of the method.  Were the first handler to return, [payload] would
    be unbound at the loop. *)
Definition update (self : App) (data : dict) : M unit :=
  let action := "update" in
  do '(obj_id, data) <- lift (dict_pop data "id");
  do payload <-
    try_except HttpClientError (get_object self obj_id)
      (λ err, run handle_error self action data err;
              raise (mk_exn UnboundLocalError "payload"))
      (λ obj,
         let model := ApiModel obj in
         let payload := model in
         do '(_, payload) <- lift (dict_pop payload "id");
         ret payload);
  let payload := overlay data payload in
  try_except HttpClientError (put_object self obj_id payload)
    (λ err, handle_error self action data err)
    (λ result, handle_response self action data result).

End Controller.
End Controller.
Export Controller.

(** ** Observations on traces *)

Definition request_verb (ev : event) : option verb :=
  match ev with
  | Request v _ _ _ => Some v
  | _ => None
  end.

(** The HTTP verbs issued, in order. *)
Definition verbs (t : list event) : list verb := omap request_verb t.

(** The bodies handed to PUT, in order. *)
Definition put_payloads (t : list event) : list dict :=
  omap (λ ev, match ev with
              | Request PUT _ _ body => Some body
              | _ => None
              end) t.

(** What reached the terminal through click. *)
Definition output (t : list event) : list string :=
  omap (λ ev, match ev with
              | Echo s | EchoPager s => Some s
              | _ => None
              end) t.

(** ** A concrete instance for examples *)

Module Demo.

Definition show (v : value) : string :=
  match v with
  | VNone => "None"
  | VBool true => "True"
  | VBool false => "False"
  | VInt z => pretty z
  | VStr s => "'" +:+ s +:+ "'"
  | VList _ => "[...]"
  | VDict _ => "{...}"
  | VObj tag => "<" +:+ tag +:+ ">"
  end.

(** Modelled from the spec: [pynsot.models.ApiModel] is not among the
    sources at hand.  The specification has the payload copy every field of
    the fetched object, so the mapping of a fetched object is its own
    dictionary. *)
Definition fields_of (v : value) : gmap string value :=
  match v with
  | VDict d => d
  | _ => ∅
  end.

Definition externals : Externals := {|
  repr := show;
  ApiModel := fields_of;
  tabulate := λ rows headers,
    join " " headers +:+ " | "
    +:+ join "; " (map (λ row, join " " (map show row)) rows);
  get_terminal_size := (24, 80)%Z
|}.

(** The object of the update example, [{id:1, name:"a", description:"x"}]. *)
Definition remote_object : dict :=
  <["id" := VInt 1]> (<["name" := VStr "a"]> (<["description" := VStr "x"]> ∅)).

(** A service holding [remote_object] under identifier 1 and nothing else. *)
Definition client : Client := {|
  resource_post := λ _ data, Return (VDict data);
  resource_get := λ rn _, Return (VDict {[ "data" := VDict {[ rn := VList [] ]} ]});
  object_get := λ _ _, Return (VDict remote_object);
  object_put := λ _ _ payload, Return (VDict payload);
  object_delete := λ _ _, Return VNone
|}.

(** A service whose every call fails with the given exception. *)
Definition failing_client (e : exn) : Client := {|
  resource_post := λ _ _, Raise e;
  resource_get := λ _ _, Raise e;
  object_get := λ _ _, Raise e;
  object_put := λ _ _ _, Raise e;
  object_delete := λ _ _, Raise e
|}.

Definition app (c : Client) : App :=
  {| api := c; verbose := false; resource_name := "devices" |}.

Definition not_found : exn :=
  {| exn_cls := HttpClientError; exn_str := "Client Error 404";
     exn_response := Some {| status_code := 404; reason := "Not Found" |} |}.

Definition server_error : exn :=
  {| exn_cls := HttpServerError; exn_str := "Server Error 500";
     exn_response :=
       Some {| status_code := 500; reason := "Internal Server Error" |} |}.

(** The parameters of the update example, [{id:1, description:"y"}]. *)
Definition update_params : dict :=
  <["id" := VInt 1]> (<["description" := VStr "y"]> ∅).

End Demo.

(** ** What the specification says the PUT carries *)

#[global] Instance is_VNone_dec (v : value) : Decision (v = VNone).
Proof. destruct v; (by left) || (by right). Defined.

(** The fetched object minus its identifier, overlaid with the entries of
    the remaining parameters whose value is not null. *)
Definition merged_payload (fetched params : dict) : dict :=
  filter (λ kv, kv.2 ≠ VNone) params ∪ delete "id" fetched.

(** ** The error handling that the four actions share *)

(** Every remote call of the controller sits in
    [try: ... except HttpClientError as err: self.handle_error(action, data, err)];
    this is what that clause makes of an exception [e] raised by the call. *)
Definition on_api_error `{Externals} (self : App) (action : string)
    (data : dict) (e : exn) : M unit :=
  if decide (exn_cls e = HttpClientError)
  then handle_error self action data e
  else raise e.

(** The message of the specification for a failure [err] of [action]. *)
Definition fatal_message `{Externals} (self : App) (action : string)
    (data : dict) (err : exn) : string :=
  match exn_response err with
  | Some resp =>
      "[FATAL] " +:+ pretty (status_code resp) +:+ " " +:+ reason resp
      +:+ " trying to " +:+ action +:+ " " +:+ singular self
      +:+ " with args: " +:+ pretty_dict data
  | None => "[FATAL] " +:+ exn_str err
  end.

Definition success_message `{Externals} (self : App) (action : string)
    (data : dict) : string :=
  "Successfully " +:+ action +:+ "ed " +:+ singular self
  +:+ " with args: " +:+ pretty_dict data +:+ "!".

(** The objects of a list response of the shape
    [{data: {<resource name>: [object, ...]}}]. *)
Definition response_objects (rn : string) (response : value) : option (list value) :=
  match response with
  | VDict d =>
      match d !! "data" with
      | Some (VDict by_resource) =>
          match by_resource !! rn with
          | Some (VList objects) => Some objects
          | _ => None
          end
      | _ => None
      end
  | _ => None
  end.

(** A list response with zero matching objects: an empty response, or one
    whose sequence of objects is empty. *)
Definition zero_objects (rn : string) (response : value) : Prop :=
  truthy response = false ∨ response_objects rn response = Some [].

(** The header of every field, when the map has them all. *)
Definition headers_of (fields_map : gmap string string) (fields : list string)
    : option (list string) :=
  mapM (λ f, fields_map !! f) fields.

Definition unmapped_field_message : string :=
  "Could not map field %r when displaying results.".

(** ** The naming convention of command plugins *)

(** The file of the plugin for command [name]. *)
Definition plugin_file (name : string) : string := "cmd_" +:+ name +:+ ".py".

(** The test and the slice that [list_commands] applies to one file name. *)
Definition command_name (filename : string) : option string :=
  if endswith filename ".py" && startswith filename "cmd_"
  then Some (slice filename 4 (-3))
  else None.

(** ** Names as click hands them over *)

(** The code points of a byte string, read as text. *)
Fixpoint code_points (s : string) : list N :=
  match s with
  | EmptyString => []
  | String c s' => Ascii.N_of_ascii c :: code_points s'
  end.

(** Every character is in the ASCII range. *)
Definition is_ascii (s : string) : Prop :=
  Forall (λ c, (c < 128)%N) (code_points s).

(** The module that [get_command] asks the import system for. *)
Definition module_path (name : list N) : string :=
  "pynsot.commands.cmd_" +:+ encode_ascii_replace name.

(** ** Where a request goes *)

(** A request addressed to the collection [rn], or to the object of [rn]
    whose identifier is the ["id"] of [data]; any other event passes. *)
Definition addressed (rn : string) (data : dict) (ev : event) : Prop :=
  match ev with
  | Request _ r None _ => r = rn
  | Request _ r (Some obj_id) _ => r = rn ∧ data !! "id" = Some obj_id
  | _ => True
  end.

(** The fields that [print_list] displays: the ones given, or the keys of
    the first object. *)
Definition display_fields (objects : value) (fields : option (list string))
    : outcome (list string) :=
  match fields with
  | None => obind (first_item objects) keys
  | Some fields => Return fields
  end.

(** The rows of the table, one per object, one cell per field. *)
Definition table_rows (objects : value) (fields : list string)
    : outcome (list (list value)) :=
  obind (iterate objects)
    (comprehension (λ obj, comprehension (λ f, getitem obj f) fields)).

(** An invocation that has printed one line when it returns and nothing
    when it raises. *)
Definition one_line_or_none {A} (m : M A) : Prop :=
  match result m with
  | Return _ => ∃ line, output (trace m) = [line]
  | Raise _ => output (trace m) = []
  end.

(** The requests of a trace, in order. *)
Definition requests (t : list event) : list event :=
  filter (λ ev, is_Some (request_verb ev)) t.

(** ** More services for examples *)

Module Sample.

(** A service that holds [obj] under every identifier. *)
Definition holding (obj : dict) : Client := {|
  resource_post := λ _ data, Return (VDict data);
  resource_get := λ rn _,
    Return (VDict {[ "data" := VDict {[ rn := VList [VDict obj] ]} ]});
  object_get := λ _ _, Return (VDict obj);
  object_put := λ _ _ payload, Return (VDict payload);
  object_delete := λ _ _, Return VNone
|}.

(** A service whose list response has a status and no data. *)
Definition shapeless : Client := {|
  resource_post := λ _ data, Return (VDict data);
  resource_get := λ _ _, Return (VDict {[ "status" := VStr "ok" ]});
  object_get := λ _ _, Return VNone;
  object_put := λ _ _ payload, Return (VDict payload);
  object_delete := λ _ _, Return VNone
|}.

Definition device : dict :=
  <["id" := VInt 7]> (<["hostname" := VStr "dev1"]> ∅).

Definition site : dict :=
  <["id" := VInt 2]> (<["name" := VStr "lab"]> ∅).

End Sample.

(** * Properties *)

(** ** Strings *)

Section Strings.

Lemma length_app (s t : string) :
  String.length (s +:+ t) = String.length s + String.length t.
Proof. induction s as [|c s IH]; simpl; [done|by rewrite IH]. Qed.

Lemma str_drop_app (p s : string) : str_drop (String.length p) (p +:+ s) = s.
Proof. induction p as [|c p IH]; simpl; [by destruct s|done]. Qed.

Lemma str_take_app (s t : string) : str_take (String.length s) (s +:+ t) = s.
Proof. induction s as [|c s IH]; simpl; [done|by rewrite IH]. Qed.

Lemma startswith_app (s p : string) :
  startswith s p = true ↔ ∃ r, s = p +:+ r.
Proof.
  unfold startswith. revert s. induction p as [|c p IH]; intros s.
  - destruct s; simpl; (split; [by eexists|done]).
  - destruct s as [|d s]; simpl; [split; [done|by intros [r Hr]]|].
    destruct (ascii_dec c d) as [->|Hne].
    + rewrite IH. split; intros [r Hr]; exists r; [by rewrite Hr|by injection Hr].
    + split; [done|]. intros [r Hr]. by injection Hr.
Qed.

Lemma endswith_unfold (s p : string) :
  endswith s p =
    if String.eqb s p then true
    else match s with
         | EmptyString => false
         | String _ s' => endswith s' p
         end.
Proof. by destruct s. Qed.

Lemma endswith_app (s p : string) :
  endswith s p = true ↔ ∃ q, s = q +:+ p.
Proof.
  split.
  - induction s as [|c s IH]; rewrite endswith_unfold.
    + destruct (String.eqb_spec EmptyString p) as [<-|]; [by exists EmptyString|done].
    + destruct (String.eqb_spec (String c s) p) as [<-|Hne].
      * by exists EmptyString.
      * intros [q ->]%IH. by exists (String c q).
  - intros [q ->]. induction q as [|c q IH]; rewrite endswith_unfold.
    + change (EmptyString +:+ p) with p. by rewrite String.eqb_refl.
    + change (String c q +:+ p) with (String c (q +:+ p)).
      by destruct (String.eqb_spec (String c (q +:+ p)) p).
Qed.

Lemma command_name_plugin_file (name : string) :
  command_name (plugin_file name) = Some name.
Proof.
  unfold command_name, plugin_file.
  rewrite (proj2 (endswith_app ("cmd_" +:+ name +:+ ".py") ".py")).
  2:{ by exists ("cmd_" +:+ name). }
  rewrite (proj2 (startswith_app _ "cmd_")) by by eexists.
  cbn [andb]. f_equal. unfold slice.
  rewrite !length_app. cbn [String.length].
  unfold slice_bound. cbn [Z.ltb Z.compare].
  replace (Z.to_nat (Z.min 4 _)) with (String.length "cmd_") by (cbn; lia).
  rewrite str_drop_app.
  replace (Z.to_nat _) with (String.length name) by (cbn; lia).
  apply str_take_app.
Qed.

Lemma command_name_Some (filename name : string) :
  command_name filename = Some name ↔ filename = plugin_file name.
Proof.
  split; [|intros ->; apply command_name_plugin_file].
  intros Hname.
  assert (∃ n, filename = plugin_file n) as [n ->].
  { unfold command_name in Hname.
    destruct (endswith filename ".py") eqn:Hend; [|done].
    destruct (startswith filename "cmd_") eqn:Hstart; [|done].
    apply startswith_app in Hstart as [r ->].
    change (endswith r ".py" = true) in Hend.
    apply endswith_app in Hend as [n ->]. by exists n. }
  rewrite command_name_plugin_file in Hname. congruence.
Qed.

#[global] Instance plugin_file_inj : Inj (=) (=) plugin_file.
Proof.
  intros n1 n2 Heq. apply (f_equal command_name) in Heq.
  rewrite !command_name_plugin_file in Heq. congruence.
Qed.

#[global] Instance plugin_file_dec (filename : string) :
  Decision (∃ name, filename = plugin_file name).
Proof.
  destruct (command_name filename) as [name|] eqn:Hname.
  - left. exists name. by apply command_name_Some.
  - right. intros [name ->]. by rewrite command_name_plugin_file in Hname.
Defined.

End Strings.

(** ** The command loader *)

Lemma list_commands_loop (listdir rv : list string) :
  foldl (λ rv filename,
           if endswith filename ".py" && startswith filename "cmd_"
           then rv ++ [slice filename 4 (-3)]
           else rv)%list rv listdir
  = (rv ++ omap command_name listdir)%list.
Proof.
  revert rv. induction listdir as [|filename listdir IH]; intros rv; cbn.
  - by rewrite app_nil_r.
  - rewrite IH. unfold command_name.
    destruct (endswith filename ".py" && startswith filename "cmd_"); [|done].
    by rewrite <- app_assoc.
Qed.

Lemma list_commands_sort (listdir : list string) :
  list_commands listdir = merge_sort String.le (omap command_name listdir).
Proof. unfold list_commands. by rewrite list_commands_loop. Qed.

Lemma plugin_files_of_names (listdir : list string) :
  plugin_file <$> omap command_name listdir
  = filter (λ filename, is_Some (command_name filename)) listdir.
Proof.
  induction listdir as [|filename listdir IH]; [done|].
  rewrite filter_cons.
  change (omap command_name (filename :: listdir))
    with (match command_name filename with
          | Some name => name :: omap command_name listdir
          | None => omap command_name listdir
          end).
  destruct (command_name filename) as [name|] eqn:Hname.
  - rewrite decide_True by by eexists.
    rewrite fmap_cons, IH. f_equal. symmetry. by apply command_name_Some.
  - rewrite decide_False by by intros [? ?]. done.
Qed.

(** C7: for every content of the plugin folder, [list_commands] returns the
    [<name>] of the files called [cmd_<name>.py] and nothing else, once per
    file, in lexical order; the result does not depend on the order in which
    the folder is enumerated, and [cmd_b.py], [cmd_a.py], [cmd_c.py] give
    [a], [b], [c]. *)
Theorem list_commands_sorted_names (listdir : list string) :
  (∀ name, name ∈ list_commands listdir ↔ plugin_file name ∈ listdir) ∧
  (NoDup listdir → NoDup (list_commands listdir)) ∧
  length (list_commands listdir)
    = length (filter (λ filename, ∃ name, filename = plugin_file name) listdir) ∧
  Sorted String.le (list_commands listdir) ∧
  (∀ listdir', listdir ≡ₚ listdir' → list_commands listdir' = list_commands listdir) ∧
  list_commands ["cmd_b.py"; "cmd_a.py"; "cmd_c.py"] = ["a"; "b"; "c"].
Proof.
  rewrite list_commands_sort.
  split; [|split; [|split; [|split; [|split]]]].
  - intros name. rewrite merge_sort_Permutation, list_elem_of_omap. split.
    + intros (filename & Hin & Hname). by apply command_name_Some in Hname as <-.
    + intros Hin. exists (plugin_file name). split; [done|].
      apply command_name_plugin_file.
  - intros Hnodup. rewrite merge_sort_Permutation.
    apply (NoDup_fmap_1 plugin_file). rewrite plugin_files_of_names.
    by apply NoDup_filter.
  - rewrite merge_sort_Permutation.
    rewrite <- (length_fmap plugin_file), plugin_files_of_names.
    f_equal. apply list_filter_iff. intros filename. split.
    + intros [name Hname]. exists name. by apply command_name_Some.
    + intros [name ->]. exists name. apply command_name_plugin_file.
  - apply Sorted_merge_sort. apply _.
  - intros listdir' Hperm. rewrite list_commands_sort.
    apply (Sorted_unique String.le).
    + apply Sorted_merge_sort, _.
    + apply Sorted_merge_sort, _.
    + by rewrite !merge_sort_Permutation, Hperm.
  - by vm_compute.
Qed.

(** C6, as the code has it: when the import of the plugin module raises
    [ImportError], [get_command] prints the error and returns [None]; it
    raises nothing. *)
Theorem get_command_import_error (import_ : string → outcome pymodule)
    (name : list N) (e : exn) :
  import_ ("pynsot.commands.cmd_" +:+ encode_ascii_replace name) = Raise e →
  exn_cls e = ImportError →
  get_command import_ name = ([Print (exn_str e)], Return VNone).
Proof.
  intros Himport Hcls. unfold get_command, try_except, lift. cbn.
  rewrite Himport. by rewrite decide_True.
Qed.

Lemma get_command_loaded (import_ : string → outcome pymodule)
    (name : list N) (mod_ : pymodule) (cli : value) :
  import_ ("pynsot.commands.cmd_" +:+ encode_ascii_replace name) = Return mod_ →
  mod_ !! "cli" = Some cli →
  get_command import_ name = ([], Return cli).
Proof.
  intros Himport Hcli. unfold get_command, try_except, lift. cbn.
  by rewrite Himport, Hcli.
Qed.

Section Properties.
Context `{Externals}.

(** ** The merge loop *)

Lemma overlay_lookup (data payload : dict) (k : string) :
  overlay data payload !! k =
    match data !! k with
    | Some v => if decide (v = VNone) then payload !! k else Some v
    | None => payload !! k
    end.
Proof.
  unfold overlay.
  induction data as [|i x m Hi Hfold IH] using map_first_key_ind.
  - by rewrite map_fold_empty, lookup_empty.
  - rewrite map_fold_insert_first_key by done.
    destruct (decide (i = k)) as [->|Hne].
    + rewrite lookup_insert_eq.
      destruct x; simpl; rewrite ?lookup_insert_eq; try done.
      by rewrite IH, Hi.
    + rewrite (lookup_insert_ne m) by done.
      destruct x; simpl; rewrite ?lookup_insert_ne by done; done.
Qed.

Lemma overlay_union (data payload : dict) :
  overlay data payload = filter (λ kv, kv.2 ≠ VNone) data ∪ payload.
Proof.
  apply map_eq; intros k.
  rewrite overlay_lookup, lookup_union.
  destruct (data !! k) as [v|] eqn:Hk.
  - destruct (decide (v = VNone)) as [->|Hv].
    + rewrite (map_lookup_filter_None_2 _ data k); [by rewrite (left_id None _)|].
      right; intros x Hx; simpl. rewrite Hk in Hx. by intros []; injection Hx.
    + rewrite (map_lookup_filter_Some_2 _ data k v) by done.
      by destruct (payload !! k).
  - rewrite (map_lookup_filter_None_2 _ data k) by (by left).
    by rewrite (left_id None _).
Qed.

Lemma overlay_without_id (data payload : dict) :
  data !! "id" = None → payload !! "id" = None →
  overlay data payload !! "id" = None.
Proof. intros Hd Hp. by rewrite overlay_lookup, Hd. Qed.

(** ** The handlers *)

Lemma handle_error_fatal (self : App) (action : string) (data : dict) (err : exn) :
  handle_error self action data err
  = ([], Raise (mk_exn SystemExit (fatal_message self action data err))).
Proof. unfold handle_error, fatal_message. by destruct (exn_response err). Qed.

Lemma on_api_error_raises (self : App) (action : string) (data : dict) (e : exn) :
  ∃ e', on_api_error self action data e = ([], Raise e').
Proof.
  unfold on_api_error. case_decide; [rewrite handle_error_fatal |]; by eexists.
Qed.

(** ** [update], case by case *)

Lemma update_without_id (self : App) (data : dict) :
  data !! "id" = None →
  update self data = ([], Raise (mk_exn KeyError "id")).
Proof. intros Hid. unfold update, dict_pop. by rewrite Hid. Qed.

Lemma update_cases (self : App) (data : dict) (obj_id : value) :
  data !! "id" = Some obj_id →
  let rn := resource_name self in
  let params := delete "id" data in
  let fetch := Request GET rn (Some obj_id) ∅ in
  update self data =
    match object_get (api self) rn obj_id with
    | Raise e => ([fetch], result (on_api_error self "update" params e))
    | Return obj =>
        match ApiModel obj !! "id" with
        | None => ([fetch], Raise (mk_exn KeyError "id"))
        | Some _ =>
            let payload := merged_payload (ApiModel obj) params in
            let store := Request PUT rn (Some obj_id) payload in
            match object_put (api self) rn obj_id payload with
            | Raise e =>
                ([fetch; store], result (on_api_error self "update" params e))
            | Return _ =>
                ([fetch; store; Echo (success_message self "update" params)],
                 Return tt)
            end
        end
    end.
Proof.
  intros Hid rn params fetch.
  unfold update, dict_pop. rewrite Hid. cbn.
  unfold get_object, bind, lift, emit, try_except. cbn.
  fold rn. destruct (object_get (api self) rn obj_id) as [obj|e]; cbn.
  - destruct (ApiModel obj !! "id") as [i|] eqn:Hobj; cbn; [|done].
    rewrite overlay_union. fold params. fold (merged_payload (ApiModel obj) params).
    unfold put_object, bind, lift, emit. cbn. fold rn.
    destruct (object_put (api self) rn obj_id _) as [r|e]; cbn; [done|].
    unfold on_api_error. case_decide; [|done].
    by rewrite handle_error_fatal.
  - unfold on_api_error. case_decide; [|done].
    by rewrite handle_error_fatal.
Qed.

(** ** [add], [remove] and [list], case by case *)

Lemma add_cases (self : App) (data : dict) :
  let rn := resource_name self in
  let create := Request POST rn None data in
  add self data =
    match resource_post (api self) rn data with
    | Raise e => ([create], result (on_api_error self "add" data e))
    | Return _ => ([create; Echo (success_message self "add" data)], Return tt)
    end.
Proof.
  intros rn create. unfold add, post, bind, lift, emit, try_except. cbn. fold rn.
  destruct (resource_post (api self) rn data) as [r|e]; cbn; [done|].
  unfold on_api_error. case_decide; [|done]. by rewrite handle_error_fatal.
Qed.

Lemma remove_without_id (self : App) (data : dict) :
  data !! "id" = None →
  remove self data = ([], Raise (mk_exn KeyError "id")).
Proof. intros Hid. unfold remove, getitem. by rewrite Hid. Qed.

Lemma remove_cases (self : App) (data : dict) (obj_id : value) :
  data !! "id" = Some obj_id →
  let rn := resource_name self in
  let destroy := Request DELETE rn (Some obj_id) ∅ in
  remove self data =
    match object_delete (api self) rn obj_id with
    | Raise e => ([destroy], result (on_api_error self "remove" data e))
    | Return _ => ([destroy; Echo (success_message self "remove" data)], Return tt)
    end.
Proof.
  intros Hid rn destroy. unfold remove, getitem. rewrite Hid. cbn.
  unfold delete_object, bind, lift, emit, try_except. cbn. fold rn.
  destruct (object_delete (api self) rn obj_id) as [r|e]; cbn; [done|].
  unfold on_api_error. case_decide; [|done]. by rewrite handle_error_fatal.
Qed.

Lemma list_via_failure (printer : value → option (list string) → M unit)
    (self : App) (data : dict) (fields : option (list string)) (e : exn) :
  resource_get (api self) (resource_name self) data = Raise e →
  list_via printer self data fields
  = ([Request GET (resource_name self) None data],
     result (on_api_error self "list" data e)).
Proof.
  intros Hget. unfold list_via, get, bind, lift, emit, try_except. cbn.
  rewrite Hget. cbn.
  unfold on_api_error. case_decide; [|done]. by rewrite handle_error_fatal.
Qed.

Lemma list_via_trace (printer : value → option (list string) → M unit)
    (self : App) (data : dict) (fields : option (list string)) :
  (∀ objects, verbs (trace (printer objects fields)) = []) →
  verbs (trace (list_via printer self data fields)) = [GET].
Proof.
  intros Hprinter.
  destruct (resource_get (api self) (resource_name self) data) as [r|e] eqn:Hget.
  - unfold list_via, get, bind, lift, emit, try_except. cbn. rewrite Hget. cbn.
    destruct (truthy r); cbn.
    + destruct (obind _ _) as [objects|e]; cbn; [|done].
      destruct (truthy objects); cbn; [|done].
      specialize (Hprinter objects).
      destruct (printer objects fields) as [t o]. cbn in *. by rewrite Hprinter.
    + done.
  - by rewrite (list_via_failure _ _ _ _ e).
Qed.

Lemma zero_objects_falsy (rn : string) (response : value) :
  zero_objects rn response →
  truthy response = false ∨
  obind (getitem response "data") (λ d, getitem d rn) = Return (VList []).
Proof.
  intros [Hfalsy|Hnone]; [by left|right].
  unfold response_objects in Hnone.
  destruct response as [| | | | |d|]; try done. cbn.
  destruct (d !! "data") as [[| | | | |by_resource|]|]; try done. cbn.
  destruct (by_resource !! rn) as [[| | | |l| |]|]; try done.
  by injection Hnone as ->.
Qed.

(** ** The field mapper and the formatter *)

Lemma lookup_comprehension (fields_map : gmap string string) (fields : list string) :
  match headers_of fields_map fields with
  | Some headers =>
      comprehension (λ f, match fields_map !! f with
                          | Some h => Return h
                          | None => Raise (mk_exn KeyError f)
                          end) fields = Return headers
  | None =>
      ∃ f, comprehension (λ f, match fields_map !! f with
                               | Some h => Return h
                               | None => Raise (mk_exn KeyError f)
                               end) fields = Raise (mk_exn KeyError f)
  end.
Proof.
  unfold headers_of. induction fields as [|f fields IH]; [done|].
  cbn. destruct (fields_map !! f) as [h|] eqn:Hf; cbn; [|by exists f].
  destruct (mapM _ fields) as [hs|]; cbn.
  - by rewrite IH.
  - destruct IH as [g ->]. by exists g.
Qed.

Lemma headers_of_None (fields_map : gmap string string) (fields : list string) :
  headers_of fields_map fields = None ↔ ∃ f, f ∈ fields ∧ fields_map !! f = None.
Proof.
  unfold headers_of. rewrite eq_None_not_Some, mapM_is_Some, <- Exists_Forall_neg.
  - rewrite Exists_exists. split; intros (f & Hin & Hf); exists f; split; try done.
    + by apply eq_None_not_Some.
    + cbn. by rewrite Hf; intros [? ?].
  - intros f. cbn. destruct (fields_map !! f); [left; by eexists|right; by intros [? ?]].
Qed.

Lemma map_fields_cases (self : App) (fields : list string)
    (fields_map : gmap string string) :
  map_fields self fields fields_map =
    match headers_of fields_map fields with
    | Some headers => ([], Return headers)
    | None => ([], Raise (mk_exn SystemExit unmapped_field_message))
    end.
Proof.
  unfold map_fields.
  pose proof (lookup_comprehension fields_map fields) as Hc.
  destruct (headers_of fields_map fields) as [headers|].
  - by rewrite Hc.
  - destruct Hc as [f ->]. done.
Qed.

Lemma verbs_bind_nil {A B} (m : M A) (k : A → M B) :
  verbs (trace m) = [] → (∀ a, verbs (trace (k a)) = []) →
  verbs (trace (bind m k)) = [].
Proof.
  intros Hm Hk. destruct m as [t [a|e]]; cbn in *; [|done].
  specialize (Hk a). destruct (k a) as [t' r]. cbn in *.
  unfold verbs in *. by rewrite omap_app, Hm, Hk.
Qed.

Lemma verbs_lift_nil {A} (o : outcome A) : verbs (trace (lift o)) = [].
Proof. done. Qed.

Lemma print_list_no_request (self : App) (objects : value)
    (fields : option (list string)) (fields_map : option (gmap string string)) :
  verbs (trace (print_list self objects fields fields_map)) = [].
Proof.
  unfold print_list.
  apply verbs_bind_nil.
  { destruct fields; [done|].
    apply verbs_bind_nil; [apply verbs_lift_nil|intros; apply verbs_lift_nil]. }
  intros fs. apply verbs_bind_nil.
  { rewrite map_fields_cases. by destruct (headers_of _ fs). }
  intros headers. apply verbs_bind_nil; [apply verbs_lift_nil|intros rows].
  destruct get_terminal_size as [h w]. by case_match.
Qed.

(** ** The payload of the PUT *)

Lemma merged_payload_lookup (fetched params : dict) (k : string) (v : value) :
  merged_payload fetched params !! k = Some v ↔
    (params !! k = Some v ∧ v ≠ VNone) ∨
    ((params !! k = None ∨ params !! k = Some VNone) ∧
     k ≠ "id" ∧ fetched !! k = Some v).
Proof.
  unfold merged_payload. rewrite <- overlay_union, overlay_lookup.
  destruct (params !! k) as [x|] eqn:Hk.
  - destruct (decide (x = VNone)) as [->|Hx].
    + rewrite lookup_delete_Some. split.
      * intros [Hne Hf]. right. eauto.
      * intros [[? ?]|(_ & Hne & Hf)]; [congruence|done].
    + split.
      * intros [= <-]. by left.
      * intros [[[= <-] _]|([?|[= ?]] & _)]; done.
  - rewrite lookup_delete_Some. split.
    + intros [Hne Hf]. right. eauto.
    + intros [[? ?]|(_ & Hne & Hf)]; done.
Qed.

Lemma merged_payload_without_id (fetched params : dict) :
  params !! "id" = None → merged_payload fetched params !! "id" = None.
Proof.
  intros Hid. unfold merged_payload. rewrite <- overlay_union.
  apply overlay_without_id; [done|apply lookup_delete_eq].
Qed.

(** C1: when the parameters of [update] hold an identifier and the GET
    returns an object (with its identifier), the one PUT carries the fetched
    object minus ["id"], overlaid with exactly the remaining parameters whose
    value is not [None]; a fetched field that the parameters do not name, or
    name with [None], is sent with its fetched value. *)
Theorem update_put_payload (self : App) (data : dict) (obj_id obj : value) :
  data !! "id" = Some obj_id →
  object_get (api self) (resource_name self) obj_id = Return obj →
  is_Some (ApiModel obj !! "id") →
  put_payloads (trace (update self data))
    = [filter (λ kv, kv.2 ≠ VNone) (delete "id" data) ∪ delete "id" (ApiModel obj)] ∧
  (∀ payload, payload ∈ put_payloads (trace (update self data)) →
     ∀ k v, payload !! k = Some v ↔
       (delete "id" data !! k = Some v ∧ v ≠ VNone) ∨
       ((delete "id" data !! k = None ∨ delete "id" data !! k = Some VNone) ∧
        k ≠ "id" ∧ ApiModel obj !! k = Some v)) ∧
  (∀ payload, payload ∈ put_payloads (trace (update self data)) →
     ∀ k, k ≠ "id" → (data !! k = None ∨ data !! k = Some VNone) →
       payload !! k = ApiModel obj !! k).
Proof.
  intros Hid Hget [i Hi].
  assert (put_payloads (trace (update self data))
          = [merged_payload (ApiModel obj) (delete "id" data)]) as Hput.
  { rewrite (update_cases self data obj_id Hid). cbn zeta. rewrite Hget, Hi.
    by destruct (object_put _ _ _ _). }
  rewrite Hput. split; [done|]. split.
  - intros payload ->%list_elem_of_singleton k v. apply merged_payload_lookup.
  - intros payload ->%list_elem_of_singleton k Hk Hparams.
    apply option_eq; intros v. rewrite merged_payload_lookup.
    rewrite !lookup_delete_ne by done. split.
    + intros [[Hv Hnn]|(_ & _ & Hf)]; [|done].
      destruct Hparams; congruence.
    + intros Hf. right. done.
Qed.

(** C2: whatever the parameters and whatever the service returns, no
    payload that [update] hands to PUT holds the key ["id"]. *)
Theorem update_payload_without_identifier (self : App) (data payload : dict) :
  payload ∈ put_payloads (trace (update self data)) →
  payload !! "id" = None.
Proof.
  destruct (data !! "id") as [obj_id|] eqn:Hid.
  - rewrite (update_cases self data obj_id Hid). cbn zeta.
    assert (merged_payload_id : ∀ fetched,
      merged_payload fetched (delete "id" data) !! "id" = None).
    { intros fetched. apply merged_payload_without_id, lookup_delete_eq. }
    destruct (object_get _ _ _) as [obj|e]; cbn.
    + destruct (ApiModel obj !! "id"); cbn.
      * destruct (object_put _ _ _ _); cbn;
          by intros ->%list_elem_of_singleton.
      * by intros ?%elem_of_nil.
    + by intros ?%elem_of_nil.
  - rewrite (update_without_id self data Hid). by intros ?%elem_of_nil.
Qed.

(** ** Verbs *)

(** C3, as the code has it: [add] issues exactly one POST and [list]
    exactly one GET; given an identifier, [remove] issues exactly one DELETE
    and [update] issues a GET followed, when that GET returns an object with
    its identifier, by exactly one PUT; no action issues another verb. *)
Theorem action_verbs (self : App) (data : dict) (fields : option (list string)) :
  verbs (trace (add self data)) = [POST] ∧
  verbs (trace (list_ self data fields)) = [GET] ∧
  (is_Some (data !! "id") → verbs (trace (remove self data)) = [DELETE]) ∧
  (∀ obj_id, data !! "id" = Some obj_id →
     verbs (trace (update self data)) =
       match object_get (api self) (resource_name self) obj_id with
       | Return obj =>
           if decide (is_Some (ApiModel obj !! "id")) then [GET; PUT] else [GET]
       | Raise _ => [GET]
       end).
Proof.
  split; [|split; [|split]].
  - rewrite add_cases. cbn zeta. by destruct (resource_post _ _ _).
  - unfold list_. apply list_via_trace. intros objects.
    apply print_list_no_request.
  - intros [obj_id Hid]. rewrite (remove_cases self data obj_id Hid). cbn zeta.
    by destruct (object_delete _ _ _).
  - intros obj_id Hid. rewrite (update_cases self data obj_id Hid). cbn zeta.
    destruct (object_get _ _ _) as [obj|e]; [|done].
    destruct (ApiModel obj !! "id") eqn:Hobj.
    + rewrite decide_True by by eexists. by destruct (object_put _ _ _ _).
    + rewrite decide_False by by intros [? ?]. done.
Qed.

Lemma action_map_update : ACTION_MAP !! "update" = Some "patch".
Proof. done. Qed.

(** ** Listing *)

(** C4: when the response to the GET of [list] holds no object, the
    invocation prints the one line ["No <singular> found matching args:
    <params>!"], returns normally (exit status 0), and does so whatever the
    formatter is: [print_list] is not called. *)
Theorem empty_list_is_not_an_error
    (printer : value → option (list string) → M unit)
    (self : App) (data : dict) (fields : option (list string)) (response : value) :
  resource_get (api self) (resource_name self) data = Return response →
  zero_objects (resource_name self) response →
  list_via printer self data fields
    = ([Request GET (resource_name self) None data;
        Echo ("No " +:+ singular self +:+ " found matching args: "
              +:+ pretty_dict data +:+ "!")],
       Return tt) ∧
  list_ self data fields = list_via printer self data fields ∧
  output (trace (list_ self data fields))
    = ["No " +:+ singular self +:+ " found matching args: "
       +:+ pretty_dict data +:+ "!"] ∧
  exit_status (result (list_ self data fields)) = 0%Z.
Proof.
  intros Hget Hzero.
  assert (∀ p, list_via p self data fields
     = ([Request GET (resource_name self) None data;
         Echo ("No " +:+ singular self +:+ " found matching args: "
               +:+ pretty_dict data +:+ "!")],
        Return tt)) as Hlist.
  { intros p. unfold list_via, get, bind, lift, emit, try_except. cbn.
    rewrite Hget. cbn.
    destruct (zero_objects_falsy _ _ Hzero) as [->| Hobjects]; [done|].
    destruct (truthy response); [|done]. by rewrite Hobjects. }
  unfold list_. by rewrite !Hlist.
Qed.

(** ** Field mapping *)

(** C5: when a requested field has no entry in the map, [map_fields] ends
    the invocation through [ctx.exit] (non-zero status) without any output,
    and [print_list] ends the same way before it builds or prints any part of
    the table, whether the fields are given or are the keys of the first
    object, and whether the map is given or is the default [FIELDS_MAP]. *)
Theorem map_fields_fails_closed (self : App) (fields : list string)
    (fields_map : gmap string string) (f : string) :
  f ∈ fields → fields_map !! f = None →
  map_fields self fields fields_map
    = ([], Raise (mk_exn SystemExit
                    "Could not map field %r when displaying results.")) ∧
  exit_status (result (map_fields self fields fields_map)) ≠ 0%Z ∧
  (∀ objects fields' fields_map',
     fields' = Some fields ∨
       (fields' = None ∧ obind (first_item objects) keys = Return fields) →
     default FIELDS_MAP fields_map' = fields_map →
     print_list self objects fields' fields_map'
       = ([], Raise (mk_exn SystemExit
                       "Could not map field %r when displaying results.")) ∧
     output (trace (print_list self objects fields' fields_map')) = [] ∧
     exit_status (result (print_list self objects fields' fields_map')) ≠ 0%Z).
Proof.
  intros Hin Hf.
  assert (headers_of fields_map fields = None) as Hnone.
  { apply headers_of_None. eauto. }
  assert (map_fields self fields fields_map
    = ([], Raise (mk_exn SystemExit unmapped_field_message))) as Hmap.
  { by rewrite map_fields_cases, Hnone. }
  rewrite Hmap. split; [done|]. split; [done|].
  intros objects fields' fields_map' Hfields Hdefault.
  assert (print_list self objects fields' fields_map'
    = ([], Raise (mk_exn SystemExit unmapped_field_message))) as ->; [|done].
  unfold print_list. destruct Hfields as [->|[-> Hkeys]].
  - cbn -[map_fields default]. by rewrite Hdefault, Hmap.
  - destruct (first_item objects) as [first_obj|e]; [|done].
    cbn in Hkeys. cbn -[map_fields default keys]. rewrite Hkeys.
    cbn -[map_fields default]. by rewrite Hdefault, Hmap.
Qed.

(** C10: whenever [map_fields] fails, what it hands to [ctx.exit] is the
    literal ["Could not map field %r when displaying results."], with the
    placeholder left as it is: the same exception for every input, which
    does not name the missing field. *)
Theorem map_fields_message_is_literal (self : App) (fields : list string)
    (fields_map : gmap string string) (e : exn) :
  result (map_fields self fields fields_map) = Raise e →
  e = mk_exn SystemExit "Could not map field %r when displaying results.".
Proof.
  rewrite map_fields_cases.
  destruct (headers_of fields_map fields); cbn; [done|by intros [= <-]].
Qed.

(** ** Remote failures *)

(** C8, as the code has it: in each of the four actions a remote call that
    raises [HttpClientError] goes to [handle_error], which ends the
    invocation through [ctx.exit] with
    ["[FATAL] <status> <reason> trying to <action> <singular> with args: <params>"]
    when the error has a response and with ["[FATAL] <str(err)>"] when it
    has none; the exit status is not zero and no call follows the failed
    one. *)
Theorem client_error_is_fatal (self : App) (data : dict) (err : exn) :
  exn_cls err = HttpClientError →
  let rn := resource_name self in
  let message action params :=
    match exn_response err with
    | Some resp =>
        "[FATAL] " +:+ pretty (status_code resp) +:+ " " +:+ reason resp
        +:+ " trying to " +:+ action +:+ " " +:+ singular self
        +:+ " with args: " +:+ pretty_dict params
    | None => "[FATAL] " +:+ exn_str err
    end in
  let fatal action params : outcome unit :=
    Raise (mk_exn SystemExit (message action params)) in
  (∀ action params,
     handle_error self action params err = ([], fatal action params) ∧
     exit_status (fatal action params) ≠ 0%Z) ∧
  (resource_post (api self) rn data = Raise err →
     add self data = ([Request POST rn None data], fatal "add" data)) ∧
  (∀ fields, resource_get (api self) rn data = Raise err →
     list_ self data fields = ([Request GET rn None data], fatal "list" data)) ∧
  (∀ obj_id, data !! "id" = Some obj_id →
     object_delete (api self) rn obj_id = Raise err →
     remove self data
       = ([Request DELETE rn (Some obj_id) ∅], fatal "remove" data)) ∧
  (∀ obj_id, data !! "id" = Some obj_id →
     object_get (api self) rn obj_id = Raise err →
     update self data
       = ([Request GET rn (Some obj_id) ∅], fatal "update" (delete "id" data))) ∧
  (∀ obj_id obj, data !! "id" = Some obj_id →
     object_get (api self) rn obj_id = Return obj →
     is_Some (ApiModel obj !! "id") →
     object_put (api self) rn obj_id
       (merged_payload (ApiModel obj) (delete "id" data)) = Raise err →
     update self data
       = ([Request GET rn (Some obj_id) ∅;
           Request PUT rn (Some obj_id)
             (merged_payload (ApiModel obj) (delete "id" data))],
          fatal "update" (delete "id" data))).
Proof.
  intros Hcls rn message fatal.
  assert (∀ action params,
    result (on_api_error self action params err) = fatal action params) as Hfatal.
  { intros action params. unfold on_api_error.
    rewrite decide_True, handle_error_fatal by done. done. }
  split; [|split; [|split; [|split; [|split]]]].
  - intros action params. by rewrite handle_error_fatal.
  - intros Hpost. rewrite add_cases. cbn zeta. fold rn.
    by rewrite Hpost, Hfatal.
  - intros fields Hget. unfold list_.
    by rewrite (list_via_failure _ _ _ _ err), Hfatal.
  - intros obj_id Hid Hdelete. rewrite (remove_cases self data obj_id Hid).
    cbn zeta. fold rn. by rewrite Hdelete, Hfatal.
  - intros obj_id Hid Hget. rewrite (update_cases self data obj_id Hid).
    cbn zeta. fold rn. by rewrite Hget, Hfatal.
  - intros obj_id obj Hid Hget [i Hi] Hput.
    rewrite (update_cases self data obj_id Hid).
    cbn zeta. fold rn. by rewrite Hget, Hi, Hput, Hfatal.
Qed.


End Properties.

(** * The properties at work *)

Section Examples.

#[local] Existing Instance Demo.externals.

Abbreviation demo_app := (Demo.app Demo.client).

(** The update example of the specification: the object
    [{id:1, name:"a", description:"x"}] updated with [{id:1, description:"y"}]
    is PUT as [{name:"a", description:"y"}]. *)
Lemma update_put_payload_witness :
  put_payloads (trace (update demo_app Demo.update_params))
  = [ <["name" := VStr "a"]> (<["description" := VStr "y"]> ∅) ].
Proof.
  refine (eq_trans
    (proj1 (update_put_payload demo_app Demo.update_params (VInt 1)
              (VDict Demo.remote_object) _ _ _)) _).
  - reflexivity.
  - reflexivity.
  - exists (VInt 1). reflexivity.
  - vm_compute. reflexivity.
Defined.

Lemma update_payload_without_identifier_witness :
  (<["name" := VStr "a"]> (<["description" := VStr "y"]> ∅) : dict) !! "id" = None.
Proof.
  apply (update_payload_without_identifier demo_app Demo.update_params).
  vm_compute. apply list_elem_of_here.
Defined.

(** [update] issues two verbs, not PUT alone. *)
Lemma update_issues_get_then_put :
  verbs (trace (update demo_app Demo.update_params)) = [GET; PUT] ∧
  verbs (trace (update demo_app Demo.update_params)) ≠ [PUT].
Proof. split; [by vm_compute|]. vm_compute. discriminate. Qed.

Lemma action_verbs_witness :
  verbs (trace (remove demo_app Demo.update_params)) = [DELETE] ∧
  verbs (trace (update demo_app Demo.update_params)) = [GET; PUT].
Proof.
  destruct (action_verbs demo_app Demo.update_params None)
    as (_ & _ & Hremove & Hupdate).
  split.
  - apply Hremove. exists (VInt 1). reflexivity.
  - rewrite (Hupdate (VInt 1)) by reflexivity. vm_compute. reflexivity.
Defined.

Lemma empty_list_is_not_an_error_witness :
  list_ demo_app {[ "name" := VStr "a" ]} None
  = ([Request GET "devices" None {[ "name" := VStr "a" ]};
      Echo "No device found matching args: name='a'!"],
     Return tt).
Proof.
  destruct (empty_list_is_not_an_error
              (λ objects fields, print_list demo_app objects fields None)
              demo_app {[ "name" := VStr "a" ]} None
              (VDict {[ "data" := VDict {[ "devices" := VList [] ]} ]}))
    as (Hvia & Hlist & _).
  - reflexivity.
  - right. reflexivity.
  - rewrite Hlist, Hvia. vm_compute. reflexivity.
Defined.

Lemma map_fields_fails_closed_witness :
  print_list demo_app (VList [VDict Demo.remote_object])
    (Some ["id"; "hostname"]) (Some FIELDS_MAP)
  = ([], Raise (mk_exn SystemExit
                  "Could not map field %r when displaying results.")).
Proof.
  destruct (map_fields_fails_closed demo_app ["id"; "hostname"] FIELDS_MAP
              "hostname") as (_ & _ & Hprint).
  - apply list_elem_of_further, list_elem_of_here.
  - reflexivity.
  - apply Hprint; [by left|reflexivity].
Defined.

Lemma map_fields_message_is_literal_witness :
  mk_exn SystemExit (unmapped_field_message)
  = mk_exn SystemExit "Could not map field %r when displaying results.".
Proof.
  apply (map_fields_message_is_literal demo_app ["hostname"] FIELDS_MAP).
  vm_compute. reflexivity.
Defined.

(** A response with a mapped and complete set of fields is printed. *)
Lemma print_list_example :
  output (trace (print_list demo_app (VList [VDict Demo.remote_object])
                   (Some ["id"; "name"]) None))
  = ["ID Name | 1 'a'"].
Proof. by vm_compute. Qed.

Lemma client_error_is_fatal_witness :
  add (Demo.app (Demo.failing_client Demo.not_found)) {[ "name" := VStr "a" ]}
  = ([Request POST "devices" None {[ "name" := VStr "a" ]}],
     Raise (mk_exn SystemExit
       "[FATAL] 404 Not Found trying to add device with args: name='a'")).
Proof.
  destruct (client_error_is_fatal (Demo.app (Demo.failing_client Demo.not_found))
              {[ "name" := VStr "a" ]} Demo.not_found)
    as (_ & Hadd & _).
  - reflexivity.
  - rewrite Hadd by reflexivity. vm_compute. reflexivity.
Defined.

(** A failure of another class than [HttpClientError], here the
    [HttpServerError] that answers a status 500, does not reach
    [handle_error]: it leaves [add] as it came. *)
Lemma server_error_is_not_handled :
  result (add (Demo.app (Demo.failing_client Demo.server_error))
            {[ "name" := VStr "a" ]})
  = Raise Demo.server_error ∧
  result (add (Demo.app (Demo.failing_client Demo.server_error))
            {[ "name" := VStr "a" ]})
  ≠ result (handle_error (Demo.app (Demo.failing_client Demo.server_error))
              "add" {[ "name" := VStr "a" ]} Demo.server_error).
Proof. split; [by vm_compute|]. vm_compute. discriminate. Qed.


End Examples.

(** A plugin whose import raises [SyntaxError] makes [get_command] raise:
    the failure is not turned into [None]. *)
Lemma get_command_syntax_error :
  get_command (λ _, Raise (mk_exn SyntaxError "invalid syntax")) [100; 101; 118]%N
  = ([], Raise (mk_exn SyntaxError "invalid syntax")) ∧
  result (get_command (λ _, Raise (mk_exn SyntaxError "invalid syntax"))
            [100; 101; 118]%N)
  ≠ Return VNone.
Proof. split; [by vm_compute|]. vm_compute. discriminate. Qed.

(** So does a plugin that loads but defines no [cli]. *)
Lemma get_command_without_cli :
  get_command (λ _, Return ∅) [100; 101; 118]%N
  = ([], Raise (mk_exn AttributeError "cli")).
Proof. by vm_compute. Qed.

Lemma get_command_import_error_witness :
  get_command (λ _, Raise (mk_exn ImportError "No module named cmd_dev"))
    [100; 101; 118]%N
  = ([Print "No module named cmd_dev"], Return VNone).
Proof.
  apply (get_command_import_error
           (λ _, Raise (mk_exn ImportError "No module named cmd_dev"))
           [100; 101; 118]%N (mk_exn ImportError "No module named cmd_dev"));
    reflexivity.
Defined.

Lemma list_commands_sorted_names_witness :
  list_commands ["cmd_c.py"; "cmd_a.py"; "README"; "cmd_b.py"]
  = list_commands ["cmd_b.py"; "README"; "cmd_a.py"; "cmd_c.py"] ∧
  NoDup (list_commands ["cmd_b.py"; "README"; "cmd_a.py"; "cmd_c.py"]).
Proof.
  destruct (list_commands_sorted_names ["cmd_b.py"; "README"; "cmd_a.py"; "cmd_c.py"])
    as (_ & Hnodup & _ & _ & Horder & _).
  split.
  - apply Horder. symmetry.
    apply (reverse_Permutation ["cmd_b.py"; "README"; "cmd_a.py"; "cmd_c.py"]).
  - apply Hnodup. refine (bool_decide_unpack _ _). by vm_compute.
Defined.

(** * Further properties of the command loader *)

Lemma slice_without_last (stem : string) (c : ascii) :
  slice (stem +:+ String c EmptyString) 0 (-1) = stem.
Proof.
  unfold slice. rewrite length_app. cbn [String.length].
  unfold slice_bound. cbn [Z.ltb Z.compare].
  replace (Z.to_nat (Z.min 0 _)) with 0 by lia.
  cbn [str_drop].
  replace (Z.to_nat _) with (String.length stem) by lia.
  apply str_take_app.
Qed.

(** X1: [singular] removes exactly one final [s] from the resource name
    when there is one, and leaves any other name as it is. *)
Theorem singular_cases (self : App) :
  (∃ stem, resource_name self = stem +:+ "s" ∧ singular self = stem) ∨
  (endswith (resource_name self) "s" = false ∧
   singular self = resource_name self).
Proof.
  unfold singular.
  destruct (endswith (resource_name self) "s") eqn:Hend; [left|by right].
  apply endswith_app in Hend as [stem Hstem]. exists stem.
  split; [done|]. rewrite Hstem. apply slice_without_last.
Qed.

Lemma encode_ascii_replace_length (name : list N) :
  String.length (encode_ascii_replace name) = length name.
Proof.
  unfold encode_ascii_replace.
  induction name as [|c name IH]; simpl; [done|by rewrite IH].
Qed.

Lemma encode_ascii_replace_is_ascii (name : list N) :
  is_ascii (encode_ascii_replace name).
Proof.
  unfold is_ascii, encode_ascii_replace.
  induction name as [|c name IH]; simpl; [constructor|].
  constructor; [|done].
  destruct (c <? 128)%N eqn:Hc.
  - apply N.ltb_lt in Hc. rewrite Ascii.N_ascii_embedding; lia.
  - by vm_compute.
Qed.


(** X2: whatever the name, [get_command] consults the import system for one
    module only, whose path is [pynsot.commands.cmd_] followed by as many
    characters as the name has, all of them ASCII. *)
Theorem get_command_one_ascii_module (name : list N) :
  is_ascii (module_path name) ∧
  String.length (module_path name) = 20 + length name ∧
  ∀ import1 import2 : string → outcome pymodule,
    import1 (module_path name) = import2 (module_path name) →
    get_command import1 name = get_command import2 name.
Proof.
  split; [|split].
  - unfold module_path, is_ascii.
    change (code_points ("pynsot.commands.cmd_" +:+ encode_ascii_replace name))
      with (code_points "pynsot.commands.cmd_"
            ++ code_points (encode_ascii_replace name))%list.
    apply Forall_app. split.
    + apply (bool_decide_unpack _). by vm_compute.
    + apply encode_ascii_replace_is_ascii.
  - unfold module_path. by rewrite length_app, encode_ascii_replace_length.
  - intros import1 import2 Hsame. unfold get_command, module_path in *.
    by rewrite Hsame.
Qed.


(** X4: [get_command] prints exactly when the import raises [ImportError],
    and answers [None] only then or when the module's own [cli] is [None];
    any other exception of the import leaves it unchanged. *)
Theorem get_command_outcomes (import_ : string → outcome pymodule) (name : list N) :
  (trace (get_command import_ name) ≠ [] ↔
     ∃ e, import_ (module_path name) = Raise e ∧ exn_cls e = ImportError) ∧
  (result (get_command import_ name) = Return VNone →
     (∃ e, import_ (module_path name) = Raise e ∧ exn_cls e = ImportError) ∨
     (∃ mod_, import_ (module_path name) = Return mod_ ∧ mod_ !! "cli" = Some VNone)) ∧
  (∀ e, import_ (module_path name) = Raise e → exn_cls e ≠ ImportError →
     get_command import_ name = ([], Raise e)) ∧
  (∀ mod_, import_ (module_path name) = Return mod_ → mod_ !! "cli" = None →
     get_command import_ name = ([], Raise (mk_exn AttributeError "cli"))).
Proof.
  unfold get_command, try_except, lift, module_path. cbn.
  destruct (import_ _) as [mod_|e] eqn:Himport.
  - destruct (mod_ !! "cli") as [cli|] eqn:Hcli; cbn.
    + split; [split; [done|by intros (? & ? & ?)]|].
      split; [intros [= ->]; right; by exists mod_|]. split; [done|].
      intros ? [= <-]. congruence.
    + split; [split; [done|by intros (? & ? & ?)]|].
      split; [done|]. split; done.
  - destruct (decide (exn_cls e = ImportError)) as [Hcls|Hcls]; cbn.
    + split; [split; [by exists e|done]|].
      split; [intros _; left; by exists e|]. split; [|done].
      intros ? [= <-] ?. done.
    + split; [split; [done|intros (? & [= <-] & ?); done]|].
      split; [done|]. split; [|done]. by intros ? [= <-] _.
Qed.


Lemma get_command_one_ascii_module_witness :
  get_command (λ m, if String.eqb m "pynsot.commands.cmd_d?v"
                    then Return {[ "cli" := VObj "dev" ]}
                    else Raise (mk_exn ImportError m))
    [100; 233; 118]%N
  = get_command (λ _, Return {[ "cli" := VObj "dev" ]}) [100; 233; 118]%N.
Proof.
  apply (get_command_one_ascii_module [100; 233; 118]%N). reflexivity.
Defined.

Lemma get_command_outcomes_witness :
  get_command (λ _, Raise (mk_exn UnicodeDecodeError "ascii")) [100]%N
  = ([], Raise (mk_exn UnicodeDecodeError "ascii")).
Proof.
  apply (get_command_outcomes
           (λ _, Raise (mk_exn UnicodeDecodeError "ascii")) [100]%N).
  - reflexivity.
  - discriminate.
Defined.

(** * Further properties of the resource controller *)

Section Further.
Context `{Externals}.

(** ** Identifiers *)

(** X5: without an ["id"] among the parameters, [remove] and [update] end
    with a [KeyError] before any request is sent and before anything is
    printed; the error does not pass through [handle_error]. *)
Theorem missing_identifier_is_key_error (self : App) (data : dict) :
  data !! "id" = None →
  remove self data = ([], Raise (mk_exn KeyError "id")) ∧
  update self data = ([], Raise (mk_exn KeyError "id")).
Proof.
  intros Hid. by rewrite remove_without_id, update_without_id.
Qed.

(** X6: when the object that the GET of [update] returns has no ["id"],
    [update] ends with a [KeyError] after the GET: nothing is PUT and
    nothing is printed. *)
Theorem update_fetched_without_identifier (self : App) (data : dict)
    (obj_id obj : value) :
  data !! "id" = Some obj_id →
  object_get (api self) (resource_name self) obj_id = Return obj →
  ApiModel obj !! "id" = None →
  update self data
  = ([Request GET (resource_name self) (Some obj_id) ∅],
     Raise (mk_exn KeyError "id")).
Proof.
  intros Hid Hget Hobj. rewrite (update_cases self data obj_id Hid). cbn zeta.
  by rewrite Hget, Hobj.
Qed.

(** ** The merge of [update] *)

Lemma merged_payload_unchanged (fetched params : dict) :
  (∀ k v, params !! k = Some v → v = VNone) →
  merged_payload fetched params = delete "id" fetched.
Proof.
  intros Hnull. unfold merged_payload. rewrite <- overlay_union.
  apply map_eq; intros k. rewrite overlay_lookup.
  destruct (params !! k) as [v|] eqn:Hk; [|done].
  by rewrite (Hnull k v Hk), decide_True.
Qed.

(** X7: an [update] whose parameters, the identifier apart, are all absent
    or [None] sends the fetched object back as it is, without its ["id"]. *)
Theorem update_without_changes (self : App) (data : dict) (obj_id obj : value) :
  data !! "id" = Some obj_id →
  object_get (api self) (resource_name self) obj_id = Return obj →
  is_Some (ApiModel obj !! "id") →
  (∀ k v, k ≠ "id" → data !! k = Some v → v = VNone) →
  put_payloads (trace (update self data)) = [delete "id" (ApiModel obj)].
Proof.
  intros Hid Hget [i Hi] Hnull.
  rewrite (update_cases self data obj_id Hid). cbn zeta. rewrite Hget, Hi.
  rewrite merged_payload_unchanged.
  - by destruct (object_put _ _ _ _).
  - intros k v [Hk Hv]%lookup_delete_Some. eauto.
Qed.

Lemma merged_payload_again (fetched fetched' params : dict) :
  delete "id" fetched' = merged_payload fetched params →
  merged_payload fetched' params = merged_payload fetched params.
Proof.
  intros Hstored. unfold merged_payload at 1. rewrite Hstored.
  unfold merged_payload. by rewrite (assoc_L (∪)), (idemp_L (∪)).
Qed.

(** X8: repeating an [update] with the same parameters, once the service
    holds what the first one has PUT, sends the same payload again. *)
Theorem update_twice_same_payload (self self' : App) (data : dict)
    (obj_id obj obj' : value) :
  data !! "id" = Some obj_id →
  object_get (api self) (resource_name self) obj_id = Return obj →
  is_Some (ApiModel obj !! "id") →
  object_get (api self') (resource_name self') obj_id = Return obj' →
  is_Some (ApiModel obj' !! "id") →
  put_payloads (trace (update self data)) = [delete "id" (ApiModel obj')] →
  put_payloads (trace (update self' data)) = put_payloads (trace (update self data)).
Proof.
  intros Hid Hget [i Hi] Hget' [i' Hi'].
  rewrite (update_cases self data obj_id Hid), (update_cases self' data obj_id Hid).
  cbn zeta. rewrite Hget, Hi, Hget', Hi'.
  assert (∀ (a : App) p,
    put_payloads (trace
      match object_put (api a) (resource_name a) obj_id p with
      | Return _ =>
          ([Request GET (resource_name a) (Some obj_id) ∅;
            Request PUT (resource_name a) (Some obj_id) p;
            Echo (success_message a "update" (delete "id" data))], Return tt)
      | Raise e =>
          ([Request GET (resource_name a) (Some obj_id) ∅;
            Request PUT (resource_name a) (Some obj_id) p],
           result (on_api_error a "update" (delete "id" data) e))
      end) = [p]) as Hput.
  { intros a p. by destruct (object_put _ _ _ _). }
  rewrite !Hput. intros [= Hstored].
  by rewrite (merged_payload_again (ApiModel obj)).
Qed.

Lemma merged_payload_null (fetched params : dict) (k : string) :
  merged_payload fetched (<[k := VNone]> params)
  = merged_payload fetched (delete k params).
Proof.
  unfold merged_payload. rewrite <- !overlay_union.
  apply map_eq; intros j. rewrite !overlay_lookup.
  destruct (decide (k = j)) as [->|Hne].
  - by rewrite lookup_insert_eq, lookup_delete_eq, decide_True.
  - rewrite (lookup_insert_ne params k j), (lookup_delete_ne params k j) by done.
    done.
Qed.

(** X9: for [update], a parameter given as [None] and a parameter left out
    are the same thing: both calls send the same payloads. *)
Theorem update_null_is_omitted (self : App) (data : dict) (k : string) :
  k ≠ "id" →
  put_payloads (trace (update self (<[k := VNone]> data)))
  = put_payloads (trace (update self (delete k data))).
Proof.
  intros Hk. destruct (data !! "id") as [obj_id|] eqn:Hid.
  - rewrite (update_cases self (<[k := VNone]> data) obj_id)
      by by rewrite lookup_insert_ne.
    rewrite (update_cases self (delete k data) obj_id)
      by by rewrite lookup_delete_ne.
    cbn zeta. destruct (object_get _ _ _) as [obj|e]; [|done].
    destruct (ApiModel obj !! "id"); [|done].
    rewrite (delete_insert_ne data) by done.
    rewrite merged_payload_null.
    rewrite (delete_delete data "id" k).
    by destruct (object_put _ _ _ _).
  - rewrite !update_without_id; [done|by rewrite lookup_delete_ne
                                     |by rewrite lookup_insert_ne].
Qed.

(** ** Success *)

(** X10: when the remote calls return, [add], [remove] and [update] print
    one line, ["Successfully <action>ed <singular> with args: <params>!"]
    (so ["removeed"] and ["updateed"]), after their requests, and return;
    [update] shows the parameters without the identifier. *)
Theorem success_reports_one_line (self : App) (data : dict) :
  let rn := resource_name self in
  (∀ r, resource_post (api self) rn data = Return r →
     add self data
     = ([Request POST rn None data;
         Echo ("Successfully added " +:+ singular self +:+ " with args: "
               +:+ pretty_dict data +:+ "!")],
        Return tt)) ∧
  (∀ obj_id r, data !! "id" = Some obj_id →
     object_delete (api self) rn obj_id = Return r →
     remove self data
     = ([Request DELETE rn (Some obj_id) ∅;
         Echo ("Successfully removeed " +:+ singular self +:+ " with args: "
               +:+ pretty_dict data +:+ "!")],
        Return tt)) ∧
  (∀ obj_id obj r, data !! "id" = Some obj_id →
     object_get (api self) rn obj_id = Return obj →
     is_Some (ApiModel obj !! "id") →
     object_put (api self) rn obj_id
       (merged_payload (ApiModel obj) (delete "id" data)) = Return r →
     update self data
     = ([Request GET rn (Some obj_id) ∅;
         Request PUT rn (Some obj_id)
           (merged_payload (ApiModel obj) (delete "id" data));
         Echo ("Successfully updateed " +:+ singular self +:+ " with args: "
               +:+ pretty_dict (delete "id" data) +:+ "!")],
        Return tt)).
Proof.
  intros rn. split; [|split].
  - intros r Hpost. rewrite add_cases. cbn zeta. fold rn. by rewrite Hpost.
  - intros obj_id r Hid Hdelete. rewrite (remove_cases self data obj_id Hid).
    cbn zeta. fold rn. by rewrite Hdelete.
  - intros obj_id obj r Hid Hget [i Hi] Hput.
    rewrite (update_cases self data obj_id Hid).
    cbn zeta. fold rn. by rewrite Hget, Hi, Hput.
Qed.

(** ** [print_list] and [list], case by case *)

Lemma bind_lift {A B} (o : outcome A) (k : A → M B) :
  bind (lift o) k = match o with
                    | Return a => k a
                    | Raise e => ([], Raise e)
                    end.
Proof. destruct o as [a|e]; cbn; [by destruct (k a)|done]. Qed.

Lemma print_list_cases (self : App) (objects : value)
    (fields : option (list string)) (fields_map : option (gmap string string)) :
  print_list self objects fields fields_map =
    match display_fields objects fields with
    | Raise e => ([], Raise e)
    | Return fields =>
        match headers_of (default FIELDS_MAP fields_map) fields with
        | None => ([], Raise (mk_exn SystemExit unmapped_field_message))
        | Some headers =>
            match table_rows objects fields with
            | Raise e => ([], Raise e)
            | Return rows =>
                ([if (Z.of_nat (length rows) >? get_terminal_size.1)%Z
                  then EchoPager (tabulate rows headers)
                  else Echo (tabulate rows headers)],
                 Return tt)
            end
        end
    end.
Proof.
  unfold print_list.
  assert (∀ fs : list string,
    (do headers <- map_fields self fs (default FIELDS_MAP fields_map);
     do table_data <- lift (table_rows objects fs);
     let table := tabulate table_data headers in
     let '(t_height, _) := get_terminal_size in
     if (Z.of_nat (length table_data) >? t_height)%Z
     then emit (EchoPager table)
     else echo table)
    = match headers_of (default FIELDS_MAP fields_map) fs with
      | None => ([], Raise (mk_exn SystemExit unmapped_field_message))
      | Some headers =>
          match table_rows objects fs with
          | Raise e => ([], Raise e)
          | Return rows =>
              ([if (Z.of_nat (length rows) >? get_terminal_size.1)%Z
                then EchoPager (tabulate rows headers)
                else Echo (tabulate rows headers)],
               Return tt)
          end
      end) as Hrest.
  { intros fs. rewrite map_fields_cases.
    destruct (headers_of _ fs) as [headers|]; [|done].
    change (bind ([], Return headers) ?k) with (bind (lift (Return headers)) k).
    rewrite bind_lift, bind_lift.
    destruct (table_rows objects fs) as [rows|e]; [|done].
    destruct get_terminal_size as [h w]. cbn. by case_match. }
  unfold display_fields. destruct fields as [fs|].
  - change (ret fs) with (lift (Return fs)). rewrite bind_lift. apply Hrest.
  - rewrite bind_lift.
    destruct (first_item objects) as [first_obj|e]; cbn [obind]; [|done].
    rewrite bind_lift.
    destruct (keys first_obj) as [fs|e]; [|done]. apply Hrest.
Qed.

Lemma list_cases (self : App) (data : dict) (fields : option (list string)) :
  let rn := resource_name self in
  let query := Request GET rn None data in
  list_ self data fields =
    match resource_get (api self) rn data with
    | Raise e => ([query], result (on_api_error self "list" data e))
    | Return response =>
        match (if truthy response
               then obind (getitem response "data") (λ d, getitem d rn)
               else Return (VList [])) with
        | Raise e => ([query], Raise e)
        | Return objects =>
            if truthy objects
            then (query :: trace (print_list self objects fields None),
                  result (print_list self objects fields None))
            else ([query;
                   Echo ("No " +:+ singular self +:+ " found matching args: "
                         +:+ pretty_dict data +:+ "!")],
                  Return tt)
        end
    end.
Proof.
  intros rn query.
  destruct (resource_get (api self) rn data) as [response|e] eqn:Hget.
  - unfold list_, list_via, get, bind, lift, emit, try_except. cbn.
    fold rn. rewrite Hget. cbn.
    destruct (truthy response); cbn.
    + destruct (obind _ _) as [objects|e]; cbn; [|done].
      destruct (truthy objects); cbn; [|done].
      by destruct (print_list self objects fields None).
    + done.
  - unfold list_. by rewrite (list_via_failure _ _ _ _ e).
Qed.

Lemma response_objects_found (rn : string) (response : value) (objects : list value) :
  response_objects rn response = Some objects →
  truthy response = true ∧
  obind (getitem response "data") (λ d, getitem d rn) = Return (VList objects).
Proof.
  unfold response_objects. intros Hobjects.
  destruct response as [| | | | |d|]; try done. cbn.
  destruct (d !! "data") as [[| | | | |by_resource|]|] eqn:Hdata; try done. cbn.
  destruct (by_resource !! rn) as [[| | | |l| |]|]; try done.
  injection Hobjects as ->. split; [|done].
  rewrite bool_decide_eq_false_2; [done|].
  intros ->. by rewrite lookup_empty in Hdata.
Qed.

(** ** The table *)

Lemma row_cases (d : dict) (fields : list string) :
  (∃ row, comprehension (λ f, getitem (VDict d) f) fields = Return row ∧
          Forall2 (λ f v, d !! f = Some v) fields row) ∨
  (∃ g, g ∈ fields ∧ d !! g = None ∧
        comprehension (λ f, getitem (VDict d) f) fields = Raise (mk_exn KeyError g)).
Proof.
  induction fields as [|f fields IH]; cbn in *.
  - left. exists []. by split.
  - destruct (d !! f) as [v|] eqn:Hf.
    + destruct IH as [(row & -> & Hrow)|(g & Hin & Hg & ->)].
      * left. exists (v :: row). split; [done|by constructor].
      * right. exists g. split; [by apply list_elem_of_further|done].
    + right. exists f. split; [apply list_elem_of_here|done].
Qed.

Lemma rows_cases (l : list dict) (fields : list string) :
  (∃ rows, table_rows (VList (VDict <$> l)) fields = Return rows ∧
           Forall2 (λ d row, Forall2 (λ f v, d !! f = Some v) fields row) l rows) ∨
  (∃ d g, d ∈ l ∧ g ∈ fields ∧ d !! g = None ∧
          table_rows (VList (VDict <$> l)) fields = Raise (mk_exn KeyError g)).
Proof.
  unfold table_rows. cbn [iterate obind].
  induction l as [|d l IH].
  - left. exists []. by split.
  - rewrite fmap_cons. cbn [comprehension].
    destruct (row_cases d fields) as [(row & -> & Hrow)|(g & Hin & Hg & ->)].
    + destruct IH as [(rows & -> & Hrows)|(d' & g & Hd' & Hin & Hg & ->)].
      * left. exists (row :: rows). split; [done|by constructor].
      * right. exists d', g. by split; [apply list_elem_of_further|].
    + right. exists d, g. by split; [apply list_elem_of_here|].
Qed.


(** X13: when an object lacks one of the displayed fields, [print_list]
    ends with the [KeyError] of a displayed field and prints nothing, not
    even the rows of the objects that are complete. *)
Theorem print_list_strict_schema (self : App) (l : list dict)
    (fields : list string) (fields_map : gmap string string)
    (d : dict) (f : string) :
  is_Some (headers_of fields_map fields) →
  d ∈ l → f ∈ fields → d !! f = None →
  ∃ g, g ∈ fields ∧
    print_list self (VList (VDict <$> l)) (Some fields) (Some fields_map)
    = ([], Raise (mk_exn KeyError g)).
Proof.
  intros [headers Hheaders] Hd Hf Hmissing.
  rewrite print_list_cases. cbn [display_fields from_option id]. rewrite Hheaders.
  destruct (rows_cases l fields) as [(rows & _ & Hrows)|(d' & g & _ & Hin & _ & ->)].
  - apply list_elem_of_lookup in Hd as [i Hi].
    destruct (Forall2_lookup_l _ _ _ _ _ Hrows Hi) as (row & _ & Hrow).
    apply list_elem_of_lookup in Hf as [j Hj].
    destruct (Forall2_lookup_l _ _ _ _ _ Hrow Hj) as (v & _ & Hv). congruence.
  - by exists g.
Qed.

(** ** What [list] shows *)

(** X15: [list] always maps fields through [FIELDS_MAP], so when objects
    come back and a requested field is not one of [id], [name] and
    [description], the invocation ends through [ctx.exit] with the mapping
    message after its GET, and no table is printed. *)
Theorem list_fields_limited (self : App) (data : dict) (fields : list string)
    (response : value) (object_ : value) (objects : list value) (f : string) :
  resource_get (api self) (resource_name self) data = Return response →
  response_objects (resource_name self) response = Some (object_ :: objects) →
  f ∈ fields → f ≠ "id" → f ≠ "name" → f ≠ "description" →
  list_ self data (Some fields)
  = ([Request GET (resource_name self) None data],
     Raise (mk_exn SystemExit "Could not map field %r when displaying results.")).
Proof.
  intros Hget Hobjects Hin Hid Hname Hdescription.
  destruct (response_objects_found _ _ _ Hobjects) as [Htruthy Hitems].
  rewrite list_cases. cbn zeta. rewrite Hget, Htruthy, Hitems.
  cbn [truthy]. rewrite print_list_cases. cbn [display_fields from_option id].
  rewrite (proj2 (headers_of_None FIELDS_MAP fields)); [done|].
  exists f. split; [done|]. unfold FIELDS_MAP.
  by rewrite !lookup_insert_ne, lookup_empty.
Qed.

(** X16: [list] does not check the shape of a response: one that is not
    empty and has no ["data"], or whose ["data"] has no entry for the
    resource, ends the invocation with the [KeyError] of the missing key
    after the GET, with nothing printed. *)
Theorem list_malformed_response (self : App) (data : dict)
    (fields : option (list string)) (d : dict) :
  resource_get (api self) (resource_name self) data = Return (VDict d) →
  d ≠ ∅ →
  (d !! "data" = None →
     list_ self data fields
     = ([Request GET (resource_name self) None data],
        Raise (mk_exn KeyError "data"))) ∧
  (∀ by_resource, d !! "data" = Some (VDict by_resource) →
     by_resource !! resource_name self = None →
     list_ self data fields
     = ([Request GET (resource_name self) None data],
        Raise (mk_exn KeyError (resource_name self)))).
Proof.
  intros Hget Hd. rewrite list_cases. cbn zeta. rewrite Hget.
  cbn [truthy]. rewrite bool_decide_eq_false_2 by done. cbn [negb].
  split.
  - intros Hdata. cbn. by rewrite Hdata.
  - intros by_resource Hdata Hrn. cbn. rewrite Hdata. cbn. by rewrite Hrn.
Qed.

Lemma comprehension_raise {A B} (f : A → outcome B) (l : list A) (e : exn) :
  comprehension f l = Raise e → ∃ x, x ∈ l ∧ f x = Raise e.
Proof.
  induction l as [|x l IH]; cbn; [done|].
  destruct (f x) as [y|e'] eqn:Hx.
  - destruct (comprehension f l) as [ys|e'']; [done|].
    intros [= ->]. destruct IH as (x' & Hin & Hx'); [done|].
    exists x'. split; [by apply list_elem_of_further|done].
  - intros [= ->]. exists x. split; [apply list_elem_of_here|done].
Qed.

Lemma getitem_raise (v : value) (k : string) (e : exn) :
  getitem v k = Raise e → exn_cls e = KeyError ∨ exn_cls e = TypeError.
Proof.
  destruct v as [| | | | |d|]; cbn; try (intros [= <-]; by right).
  destruct (d !! k); [done|]. intros [= <-]. by left.
Qed.

Lemma table_rows_raise (objects : value) (fields : list string) (e : exn) :
  table_rows objects fields = Raise e →
  exn_cls e = KeyError ∨ exn_cls e = TypeError.
Proof.
  unfold table_rows.
  destruct (iterate objects) as [l|e'] eqn:Hiter; cbn [obind].
  - intros (obj & _ & (f & _ & Hitem)%comprehension_raise)%comprehension_raise.
    by apply getitem_raise in Hitem.
  - intros [= ->]. destruct objects; cbn in Hiter; try done;
      injection Hiter as <-; by right.
Qed.

Lemma display_fields_raise (objects : value) (fields : option (list string))
    (e : exn) :
  truthy objects = true →
  display_fields objects fields = Raise e →
  exn_cls e ≠ IndexError.
Proof.
  intros Htruthy. unfold display_fields. destruct fields as [fs|]; [done|].
  destruct (first_item objects) as [first_obj|e'] eqn:Hfirst; cbn [obind].
  - destruct first_obj; cbn; try done; by intros [= <-].
  - intros [= ->].
    destruct objects as [| | |s|l|d|]; cbn in Hfirst, Htruthy;
      try (injection Hfirst as <-; done).
    + destruct s; [done|]. done.
    + destruct l; [done|]. done.
Qed.

(** X14: [list] hands [print_list] nothing but a non-empty result, so the
    [objects[0]] that infers the fields cannot fail for want of a first
    object: unless the GET itself raises one, [list] never ends with an
    [IndexError]. *)
Theorem list_never_index_error (self : App) (data : dict)
    (fields : option (list string)) (e : exn) :
  (∀ e', resource_get (api self) (resource_name self) data = Raise e' →
         exn_cls e' ≠ IndexError) →
  result (list_ self data fields) = Raise e →
  exn_cls e ≠ IndexError.
Proof.
  intros Hget. rewrite list_cases. cbn zeta.
  destruct (resource_get _ _ _) as [response|e'].
  - destruct (truthy response).
    + destruct (obind _ _) as [objects|e''] eqn:Hitems.
      * destruct (truthy objects) eqn:Htruthy; [|done].
        cbn [result snd]. rewrite print_list_cases.
        destruct (display_fields objects fields) as [fs|e3] eqn:Hfs.
        -- destruct (headers_of _ fs); [|by intros [= <-]].
           destruct (table_rows objects fs) as [rows|e4] eqn:Hrows; [done|].
           intros [= ->]. by destruct (table_rows_raise _ _ _ Hrows) as [-> | ->].
        -- intros [= ->]. by eapply display_fields_raise.
      * intros [= ->]. destruct (getitem response "data") as [d|e3] eqn:Hdata.
        -- cbn in Hitems. by destruct (getitem_raise _ _ _ Hitems) as [-> | ->].
        -- cbn in Hitems. injection Hitems as ->.
           by destruct (getitem_raise _ _ _ Hdata) as [-> | ->].
    + done.
  - cbn [result snd]. unfold on_api_error. case_decide as Hcls.
    + rewrite handle_error_fatal. by intros [= <-].
    + intros [= <-]. by apply Hget.
Qed.

(** ** Output and requests of the four actions *)

Lemma print_list_one_line_or_none (self : App) (objects : value)
    (fields : option (list string)) (fields_map : option (gmap string string)) :
  one_line_or_none (print_list self objects fields fields_map).
Proof.
  rewrite print_list_cases. unfold one_line_or_none.
  destruct (display_fields objects fields) as [fs|e]; [|done].
  destruct (headers_of _ fs) as [headers|]; [|done].
  destruct (table_rows objects fs) as [rows|e]; [|done].
  cbn. destruct (_ >? _)%Z; by eexists.
Qed.

Lemma print_list_addressed (self : App) (objects : value)
    (fields : option (list string)) (fields_map : option (gmap string string))
    (rn : string) (data : dict) :
  Forall (addressed rn data) (trace (print_list self objects fields fields_map)).
Proof.
  rewrite print_list_cases.
  destruct (display_fields objects fields) as [fs|e]; [|by constructor].
  destruct (headers_of _ fs) as [headers|]; [|by constructor].
  destruct (table_rows objects fs) as [rows|e]; [|by constructor].
  cbn. destruct (_ >? _)%Z; by repeat constructor.
Qed.

(** X11: each of the four actions prints exactly one line when it returns
    and nothing at all when it ends with an exception: no invocation leaves
    a partial output behind. *)
Theorem output_all_or_nothing (self : App) (data : dict)
    (fields : option (list string)) :
  one_line_or_none (add self data) ∧
  one_line_or_none (list_ self data fields) ∧
  one_line_or_none (remove self data) ∧
  one_line_or_none (update self data).
Proof.
  assert (∀ action params e (t : list event),
    output t = [] →
    one_line_or_none (t, result (on_api_error self action params e))) as Hfail.
  { intros action params e t Ht.
    destruct (on_api_error_raises self action params e) as [e' ->]. done. }
  split; [|split; [|split]].
  - rewrite add_cases. cbn zeta.
    destruct (resource_post _ _ _); [by eexists|by apply Hfail].
  - rewrite list_cases. cbn zeta.
    destruct (resource_get _ _ _) as [response|e]; [|by apply Hfail].
    destruct (if truthy response then _ else _) as [objects|e]; [|done].
    destruct (truthy objects); [|by eexists].
    apply (print_list_one_line_or_none self objects fields None).
  - destruct (data !! "id") as [obj_id|] eqn:Hid.
    + rewrite (remove_cases self data obj_id Hid). cbn zeta.
      destruct (object_delete _ _ _); [by eexists|by apply Hfail].
    + by rewrite remove_without_id.
  - destruct (data !! "id") as [obj_id|] eqn:Hid.
    + rewrite (update_cases self data obj_id Hid). cbn zeta.
      destruct (object_get _ _ _) as [obj|e]; [|by apply Hfail].
      destruct (ApiModel obj !! "id"); [|done].
      destruct (object_put _ _ _ _); [by eexists|by apply Hfail].
    + by rewrite update_without_id.
Qed.

(** X17: every request of an action goes to the resource that the
    controller is bound to, and every request on a single object goes to
    the object named by the ["id"] of the parameters. *)
Theorem requests_addressed (self : App) (data : dict)
    (fields : option (list string)) :
  Forall (addressed (resource_name self) data) (trace (add self data)) ∧
  Forall (addressed (resource_name self) data) (trace (list_ self data fields)) ∧
  Forall (addressed (resource_name self) data) (trace (remove self data)) ∧
  Forall (addressed (resource_name self) data) (trace (update self data)).
Proof.
  split; [|split; [|split]].
  - rewrite add_cases. cbn zeta.
    destruct (resource_post _ _ _); by repeat constructor.
  - rewrite list_cases. cbn zeta.
    destruct (resource_get _ _ _) as [response|e]; [|by repeat constructor].
    destruct (if truthy response then _ else _) as [objects|e];
      [|by repeat constructor].
    destruct (truthy objects); [|by repeat constructor].
    constructor; [done|]. apply print_list_addressed.
  - destruct (data !! "id") as [obj_id|] eqn:Hid.
    + rewrite (remove_cases self data obj_id Hid). cbn zeta.
      destruct (object_delete _ _ _); by repeat constructor.
    + rewrite remove_without_id by done. constructor.
  - destruct (data !! "id") as [obj_id|] eqn:Hid.
    + rewrite (update_cases self data obj_id Hid). cbn zeta.
      destruct (object_get _ _ _) as [obj|e]; [|by repeat constructor].
      destruct (ApiModel obj !! "id"); [|by repeat constructor].
      destruct (object_put _ _ _ _); by repeat constructor.
    + rewrite update_without_id by done. constructor.
Qed.

(** X18: of its parameters [remove] sends the identifier and nothing else:
    two calls whose parameters agree on ["id"] issue the same requests. *)
Theorem remove_sends_identifier_only (self : App) (data data' : dict) :
  data !! "id" = data' !! "id" →
  requests (trace (remove self data)) = requests (trace (remove self data')).
Proof.
  intros Hsame. destruct (data !! "id") as [obj_id|] eqn:Hid.
  - rewrite (remove_cases self data obj_id Hid).
    rewrite (remove_cases self data' obj_id) by done. cbn zeta.
    by destruct (object_delete _ _ _).
  - rewrite !remove_without_id; done.
Qed.

End Further.

(** * The further properties at work *)

Section FurtherExamples.

#[local] Existing Instance Demo.externals.

Lemma missing_identifier_is_key_error_witness :
  remove (Demo.app Demo.client) {[ "name" := VStr "a" ]}
  = ([], Raise (mk_exn KeyError "id")).
Proof.
  apply (missing_identifier_is_key_error (Demo.app Demo.client)
           {[ "name" := VStr "a" ]}).
  reflexivity.
Defined.

Lemma update_fetched_without_identifier_witness :
  update (Demo.app (Sample.holding {[ "name" := VStr "a" ]})) Demo.update_params
  = ([Request GET "devices" (Some (VInt 1)) ∅], Raise (mk_exn KeyError "id")).
Proof.
  apply (update_fetched_without_identifier
           (Demo.app (Sample.holding {[ "name" := VStr "a" ]}))
           Demo.update_params (VInt 1) (VDict {[ "name" := VStr "a" ]}));
    reflexivity.
Defined.

Lemma update_without_changes_witness :
  put_payloads (trace (update (Demo.app Demo.client)
                         (<["id" := VInt 1]> (<["name" := VNone]> ∅))))
  = [delete "id" (ApiModel (VDict Demo.remote_object))].
Proof.
  apply (update_without_changes (Demo.app Demo.client)
           (<["id" := VInt 1]> (<["name" := VNone]> ∅))
           (VInt 1) (VDict Demo.remote_object)).
  - reflexivity.
  - reflexivity.
  - exists (VInt 1). reflexivity.
  - intros k v Hk Hv. rewrite lookup_insert_ne in Hv by done.
    apply lookup_insert_Some in Hv as [[_ <-]|[_ Hv]]; [done|].
    by rewrite lookup_empty in Hv.
Defined.

Lemma update_twice_same_payload_witness :
  put_payloads (trace (update
    (Demo.app (Sample.holding
       (<["id" := VInt 1]> (<["name" := VStr "a"]>
          (<["description" := VStr "y"]> ∅)))))
    Demo.update_params))
  = put_payloads (trace (update (Demo.app Demo.client) Demo.update_params)).
Proof.
  apply (update_twice_same_payload (Demo.app Demo.client) _ Demo.update_params
           (VInt 1) (VDict Demo.remote_object)
           (VDict (<["id" := VInt 1]> (<["name" := VStr "a"]>
                     (<["description" := VStr "y"]> ∅))))).
  - reflexivity.
  - reflexivity.
  - exists (VInt 1). reflexivity.
  - reflexivity.
  - exists (VInt 1). reflexivity.
  - vm_compute. reflexivity.
Defined.

Lemma update_null_is_omitted_witness :
  put_payloads (trace (update (Demo.app Demo.client)
                         (<["name" := VNone]> Demo.update_params)))
  = put_payloads (trace (update (Demo.app Demo.client)
                           (delete "name" Demo.update_params))).
Proof.
  apply (update_null_is_omitted (Demo.app Demo.client) Demo.update_params "name").
  discriminate.
Defined.

Lemma success_reports_one_line_witness :
  remove (Demo.app Demo.client) {[ "id" := VInt 1 ]}
  = ([Request DELETE "devices" (Some (VInt 1)) ∅;
      Echo "Successfully removeed device with args: id=1!"],
     Return tt).
Proof.
  destruct (success_reports_one_line (Demo.app Demo.client) {[ "id" := VInt 1 ]})
    as (_ & Hremove & _).
  rewrite (Hremove (VInt 1) VNone) by reflexivity.
  vm_compute. reflexivity.
Defined.


Lemma print_list_strict_schema_witness :
  ∃ g, g ∈ ["id"; "name"] ∧
    print_list (Demo.app Demo.client)
      (VList (VDict <$> [Demo.remote_object; Sample.device]))
      (Some ["id"; "name"]) (Some FIELDS_MAP)
    = ([], Raise (mk_exn KeyError g)).
Proof.
  apply (print_list_strict_schema (Demo.app Demo.client)
           [Demo.remote_object; Sample.device] ["id"; "name"] FIELDS_MAP
           Sample.device "name").
  - by eexists.
  - apply list_elem_of_further, list_elem_of_here.
  - apply list_elem_of_further, list_elem_of_here.
  - reflexivity.
Defined.

Lemma list_never_index_error_witness :
  exn_cls (mk_exn SystemExit "Could not map field %r when displaying results.")
  ≠ IndexError.
Proof.
  apply (list_never_index_error (Demo.app (Sample.holding Sample.device)) ∅ None).
  - intros e' Hget. discriminate Hget.
  - vm_compute. reflexivity.
Defined.

Lemma list_fields_limited_witness :
  list_ (Demo.app (Sample.holding Sample.device)) ∅ (Some ["id"; "hostname"])
  = ([Request GET "devices" None ∅],
     Raise (mk_exn SystemExit "Could not map field %r when displaying results.")).
Proof.
  apply (list_fields_limited (Demo.app (Sample.holding Sample.device)) ∅
           ["id"; "hostname"]
           (VDict {[ "data" := VDict {[ "devices" := VList [VDict Sample.device] ]} ]})
           (VDict Sample.device) [] "hostname").
  - reflexivity.
  - reflexivity.
  - apply list_elem_of_further, list_elem_of_here.
  - discriminate.
  - discriminate.
  - discriminate.
Defined.

Lemma list_malformed_response_witness :
  list_ (Demo.app Sample.shapeless) ∅ None
  = ([Request GET "devices" None ∅], Raise (mk_exn KeyError "data")).
Proof.
  apply (list_malformed_response (Demo.app Sample.shapeless) ∅ None
           {[ "status" := VStr "ok" ]}).
  - reflexivity.
  - intros Hempty. apply (f_equal (λ m : dict, m !! "status")) in Hempty.
    discriminate Hempty.
  - reflexivity.
Defined.

(** A listing of sites, whose fields all have headers, is printed. *)
Lemma list_sites_example :
  output (trace (list_ {| api := Sample.holding Sample.site; verbose := false;
                          resource_name := "sites" |} ∅ None))
  = ["ID Name | 2 'lab'"].
Proof. by vm_compute. Qed.

Lemma remove_sends_identifier_only_witness :
  requests (trace (remove (Demo.app Demo.client) {[ "id" := VInt 1 ]}))
  = requests (trace (remove (Demo.app Demo.client) Demo.update_params)).
Proof.
  apply (remove_sends_identifier_only (Demo.app Demo.client)
           {[ "id" := VInt 1 ]} Demo.update_params).
  reflexivity.
Defined.

End FurtherExamples.
